(** * signalk-anchorAlarmConnector: the overnight test orchestrator

    A shallow embedding of [test/scripts/overnight_test_runner.py] and of the
    reading half of [test/utils/common.py], with the properties of the
    orchestrator's state machine proved about it.

    Conventions of the embedding.
    - Wall-clock time ([time.time()]) is an integer number of milliseconds.
    - Python floats coming from JSON are rationals ([Q]); arithmetic on them
      is exact.
    - Every interaction with the outside (HTTP requests, subprocesses) asks an
      environment [Env] for the reply to the n-th call of an endpoint; the
      world counts the calls made, so the number of requests a function
      issues is observable.
    - Module-level globals of the runner (the three counters, the log, the
      progress file, the raw-data directory) are fields of the [World].

    Limits of the embedding.
    - A call that is answered is answered with a body of the shape the
      server gives it (see [payload]); inside such a body the JSON is
      arbitrary.  [run_test] subscripts the start position and searches the
      reply to the command outside any [try]: on a body of another shape
      (a position that is a number, a command reply that is [null]) these
      two statements raise and the exception ends the session.  Such
      replies are not among those of an [Env].
    - The files of the session can always be written.
    - The user does not interrupt the session: the [except
      KeyboardInterrupt] of the sampling loop and of the main program are
      never entered.
    - JSON numbers are finite: [json.loads] also reads [Infinity] and
      [NaN]. *)

From Stdlib Require Import ZArith QArith Qabs Qround Qminmax String List Sorted FinFun Bool Lia Lqa.
Import ListNotations.
Local Open Scope Z_scope.
Set Warnings "-register-all".

(** ** JSON values as [json.loads] returns them ([JNull] is Python's [None]) *)

Inductive json : Type :=
| JNull
| JBool (b : bool)
| JNum (q : Q)
| JStr (s : string)
| JArr (items : list json)
| JObj (fields : list (string * json)).

(** A JSON object, as a Python dict: the items in order. *)
Definition dict := list (string * json).

Fixpoint dict_lookup (key : string) (d : dict) : option json :=
  match d with
  | [] => None
  | (k, v) :: rest => if String.eqb key k then Some v else dict_lookup key rest
  end.

(** [d.get(key, default)] *)
Definition dict_get (key : string) (d : dict) (default : json) : json :=
  match dict_lookup key d with
  | Some v => v
  | None => default
  end.

(** [key in d] *)
Definition dict_has (key : string) (d : dict) : bool :=
  match dict_lookup key d with
  | Some _ => true
  | None => false
  end.

(** Truth value of a dict: non-empty. *)
Definition dict_truthy (d : dict) : bool :=
  match d with
  | [] => false
  | _ :: _ => true
  end.

(** Truth value of a number: non-zero. *)
Definition Q_truthy (q : Q) : bool := negb (Qeq_bool q 0).

(** Truth value of an arbitrary JSON value. *)
Definition json_truthy (j : json) : bool :=
  match j with
  | JNull => false
  | JBool b => b
  | JNum q => Q_truthy q
  | JStr s => negb (String.eqb s EmptyString)
  | JArr l => match l with [] => false | _ => true end
  | JObj d => dict_truthy d
  end.

(** The numeric reading Python gives a value in an order comparison with a
    float: numbers and booleans compare, anything else raises [TypeError]
    ([None] here). *)
Definition py_number (j : json) : option Q :=
  match j with
  | JNum q => Some q
  | JBool b => Some (if b then 1%Q else 0%Q)
  | _ => None
  end.

(** A number that [float()] refuses: beyond the range of a double.  A JSON
    number of that size is a Python [int], and formatting it with [.1f]
    raises [OverflowError]. *)
Definition float_overflow (v : Q) : bool :=
  Qle_bool (inject_Z (2 ^ 1024 - 2 ^ 970)) (Qabs v).

(** [math.pi], the double nearest to pi, as the rational it is. *)
Definition math_pi : Q := 884279719003555 # 281474976710656.

(** [x % 360] on floats: the result lies in [0, 360). *)
Definition mod360 (x : Q) : Q :=
  (x - inject_Z (360 * Qfloor (x / 360)))%Q.

(** ** Configuration constants of the runner *)

Definition TEST_TIMEOUT : Z := 600 * 1000.
Definition SAMPLE_INTERVAL : Z := 500.
Definition MAX_RETRIES : Z := 2.

Inductive TestType := autoDrop | autoRetrieve.

Definition WIND_SPEEDS : list Z := [4; 8; 12; 18; 20; 25].
Definition DEPTHS : list Z := [3; 5; 8; 12].
Definition TEST_TYPES : list TestType := [autoDrop; autoRetrieve].

Definition total_tests : nat :=
  (length WIND_SPEEDS * length DEPTHS * length TEST_TYPES)%nat.

(** ** Data model *)

(** [navigation/position/value] *)
Record Position := { latitude : Q; longitude : Q }.

(** The ['position'] entry of a sample. *)
Record SamplePosition := {
  sample_latitude : Q;
  sample_longitude : Q;
  speed : Q;
  heading : Q
}.

Record Sample := {
  timestamp : Z;
  elapsed_sec : Z;
  position : SamplePosition;
  distance_from_start : Q;
  simulation_state : option dict   (* the key is present only when the read gave a truthy value *)
}.

Record TestMetadata := {
  test_number : nat;
  test_type : TestType;
  wind_speed_kn : Z;
  wind_direction : Z;
  depth_m : Z;
  target_scope : Q;
  start_time : Z;
  end_time : Z;
  duration_sec : Z;
  sample_count : nat;
  completed : bool;
  timeout : bool
}.

Record Summary := {
  final_scope : json;
  final_rode : json;
  final_distance : Q;
  max_speed : Q;
  final_speed : Q
}.

Record TestData := {
  test_metadata : TestMetadata;
  samples : list Sample;
  summary : option Summary
}.

Inductive ProgressStatus := RUNNING | DONE | FAILED.

(** The contents of PROGRESS.txt. *)
Record Progress := {
  progress_test : nat;
  progress_wind : Z;
  progress_depth : Z;
  progress_type : TestType;
  progress_status : ProgressStatus;
  progress_completed : nat;
  progress_passed : nat;
  progress_failed : nat
}.

(** The return statement of [run_test] that ended a test before sampling. *)
Inductive Phase :=
| PhaseAuth
| PhaseController
| PhaseResetAnchor
| PhaseConfigure
| PhaseStartPosition
| PhaseCommand.

(** Lines of TEST_LOG.md, one constructor per message of the runner. *)
Inductive LogEntry :=
| LogTestHeader (test_num : nat) (t : TestType) (wind depth : Z)
| LogTokenError
| LogPhase (n : nat)
| LogPhaseOk (n : nat)
| LogFailed (p : Phase)
| LogControllerDown (msg : string)
| LogRestarting
| LogWaitRestart
| LogReconnected (msg : string)
| LogNoReconnect
| LogRestartFailed
| LogConfigError
| LogSimResetError
| LogSimResetWarning
| LogTargetScope (scope : json)
| LogRodeRetrieved (rode : json)
| LogCollectionError
| LogSaving (n : nat)
| LogSaved
| LogVerdict (passed : bool)
| LogSummary (total completed passed failed : nat).

(** ** The outside world *)

Inductive Endpoint :=
| AuthLogin            (* POST /signalk/v1/auth/login *)
| RodeDeployed         (* GET  .../navigation/anchor/rodeDeployed *)
| DeviceRestart        (* POST http://192.168.20.217/api/device/restart *)
| SimulationConfig     (* PUT  .../simulation/config *)
| SimulationState      (* GET  .../simulation/state *)
| SimulationReset      (* PUT  .../simulation/reset *)
| NavPosition          (* GET  .../navigation/position/value *)
| NavSpeed             (* GET  .../navigation/speedOverGround/value *)
| NavHeading           (* GET  .../navigation/headingTrue/value *)
| AnchorCommand        (* PUT  .../navigation/anchor/command *)
| ServerRoot           (* GET  /signalk *)
| StopChainScript      (* subprocess: stop_chain.py *)
| ResetAnchorScript    (* subprocess: reset_anchor.py *)
| SignalKPath (path : string).  (* GET .../vessels/self/<path>, common.py *)

Definition Endpoint_eqb (a b : Endpoint) : bool :=
  match a, b with
  | AuthLogin, AuthLogin
  | RodeDeployed, RodeDeployed
  | DeviceRestart, DeviceRestart
  | SimulationConfig, SimulationConfig
  | SimulationState, SimulationState
  | SimulationReset, SimulationReset
  | NavPosition, NavPosition
  | NavSpeed, NavSpeed
  | NavHeading, NavHeading
  | AnchorCommand, AnchorCommand
  | ServerRoot, ServerRoot
  | StopChainScript, StopChainScript
  | ResetAnchorScript, ResetAnchorScript => true
  | SignalKPath p, SignalKPath q => String.eqb p q
  | _, _ => false
  end.

(** What a successful call of an endpoint delivers.  The bodies have the
    shape the SignalK server and the plugin give them; the simulator state
    and the other objects keep arbitrary JSON inside. *)
Definition payload (e : Endpoint) : Type :=
  match e with
  | AuthLogin => dict
  | RodeDeployed => dict
  | DeviceRestart => unit
  | SimulationConfig => json
  | SimulationState => dict
  | SimulationReset => unit
  | NavPosition => Position
  | NavSpeed => Q
  | NavHeading => Q
  | AnchorCommand => dict
  | ServerRoot => unit
  | StopChainScript => unit
  | ResetAnchorScript => unit
  | SignalKPath _ => json
  end.

(** Outcome of one call: the body, an HTTP error status (401 is the
    authorization failure), or no answer at all. *)
Inductive Reply (A : Type) :=
| Ok (body : A)
| HttpError (status : nat)
| NoResponse.
Arguments Ok {A} body.
Arguments HttpError {A} status.
Arguments NoResponse {A}.

(** The environment: the reply to the n-th call of each endpoint and the
    time it takes. *)
Record Env := {
  respond : forall e : Endpoint, nat -> Reply (payload e);
  latency : Endpoint -> nat -> Z
}.

(** [timeout=] of each call, in milliseconds. *)
Definition call_timeout (e : Endpoint) : Z :=
  match e with
  | ResetAnchorScript => 10000
  | _ => 5000
  end.

Record World := {
  clock : Z;                       (* time.time() *)
  ncalls : Endpoint -> nat;        (* calls made so far, per endpoint *)
  tests_completed : nat;
  tests_passed : nat;
  tests_failed : nat;
  test_log : list LogEntry;        (* TEST_LOG.md, oldest first *)
  progress_file : option Progress; (* PROGRESS.txt *)
  raw_data : list TestData;        (* raw_data/*.json, oldest first *)
  calls : list (Endpoint * Z)      (* every call made with the time it was
                                      issued, oldest first; not program state *)
}.

Definition set_clock (t : Z) (w : World) : World :=
  {| clock := t; ncalls := ncalls w;
     tests_completed := tests_completed w; tests_passed := tests_passed w;
     tests_failed := tests_failed w; test_log := test_log w;
     progress_file := progress_file w; raw_data := raw_data w; calls := calls w |}.

Definition set_ncalls (f : Endpoint -> nat) (w : World) : World :=
  {| clock := clock w; ncalls := f;
     tests_completed := tests_completed w; tests_passed := tests_passed w;
     tests_failed := tests_failed w; test_log := test_log w;
     progress_file := progress_file w; raw_data := raw_data w; calls := calls w |}.

Definition set_counters (c p f : nat) (w : World) : World :=
  {| clock := clock w; ncalls := ncalls w;
     tests_completed := c; tests_passed := p;
     tests_failed := f; test_log := test_log w;
     progress_file := progress_file w; raw_data := raw_data w; calls := calls w |}.

Definition set_test_log (l : list LogEntry) (w : World) : World :=
  {| clock := clock w; ncalls := ncalls w;
     tests_completed := tests_completed w; tests_passed := tests_passed w;
     tests_failed := tests_failed w; test_log := l;
     progress_file := progress_file w; raw_data := raw_data w; calls := calls w |}.

Definition set_progress_file (p : option Progress) (w : World) : World :=
  {| clock := clock w; ncalls := ncalls w;
     tests_completed := tests_completed w; tests_passed := tests_passed w;
     tests_failed := tests_failed w; test_log := test_log w;
     progress_file := p; raw_data := raw_data w; calls := calls w |}.

Definition set_raw_data (r : list TestData) (w : World) : World :=
  {| clock := clock w; ncalls := ncalls w;
     tests_completed := tests_completed w; tests_passed := tests_passed w;
     tests_failed := tests_failed w; test_log := test_log w;
     progress_file := progress_file w; raw_data := r; calls := calls w |}.

Definition set_calls (c : list (Endpoint * Z)) (w : World) : World :=
  {| clock := clock w; ncalls := ncalls w;
     tests_completed := tests_completed w; tests_passed := tests_passed w;
     tests_failed := tests_failed w; test_log := test_log w;
     progress_file := progress_file w; raw_data := raw_data w; calls := c |}.

(** The state of a process that has just loaded the runner module. *)
Definition initial_world (t0 : Z) : World :=
  {| clock := t0; ncalls := fun _ => O;
     tests_completed := 0; tests_passed := 0; tests_failed := 0;
     test_log := []; progress_file := None; raw_data := []; calls := [] |}.

(** ** Commands: functions of the world *)

Definition M (A : Type) : Type := World -> A * World.

Definition ret {A} (a : A) : M A := fun w => (a, w).

Definition bind {A B} (c : M A) (k : A -> M B) : M B :=
  fun w => let (a, w') := c w in k a w'.

Declare Scope cmd_scope.
Delimit Scope cmd_scope with cmd.
Notation "x <- c ;; k" := (bind c (fun x => k))
  (at level 61, c at next level, right associativity) : cmd_scope.
Notation "c ;; k" := (bind c (fun _ => k))
  (at level 61, right associativity) : cmd_scope.
Local Open Scope cmd_scope.

(** [time.time()] *)
Definition now : M Z := fun w => (clock w, w).

(** [time.sleep(ms)] *)
Definition sleep (ms : Z) : M unit := fun w => (tt, set_clock (clock w + ms) w).

(** [log_test(message)] *)
Definition log_test (m : LogEntry) : M unit :=
  fun w => (tt, set_test_log (test_log w ++ [m]) w).

(** [+=] on the global counters. *)
Definition count_failed : M unit :=
  fun w => (tt, set_counters (tests_completed w) (tests_passed w) (S (tests_failed w)) w).
Definition count_passed : M unit :=
  fun w => (tt, set_counters (tests_completed w) (S (tests_passed w)) (tests_failed w) w).
Definition count_completed : M unit :=
  fun w => (tt, set_counters (S (tests_completed w)) (tests_passed w) (tests_failed w) w).

(** One call of endpoint [e]: the call is counted and recorded with the
    time it is issued, the clock advances by the latency, and a call that
    does not answer within its timeout raises (no response) when the timeout
    has elapsed. *)
Definition ask (env : Env) (e : Endpoint) : M (Reply (payload e)) :=
  fun w =>
    let n := ncalls w e in
    let d := Z.max 0 (latency env e n) in
    let counted := fun e' => if Endpoint_eqb e e' then S n else ncalls w e' in
    let recorded := calls w ++ [(e, clock w)] in
    if call_timeout e <=? d
    then (NoResponse,
          set_calls recorded
            (set_ncalls counted (set_clock (clock w + call_timeout e) w)))
    else (respond env e n,
          set_calls recorded (set_ncalls counted (set_clock (clock w + d) w))).

(** ** test/utils/common.py *)

Module Common.
Section WithEnv.

Variable env : Env.

Definition METERS_TO_LAT : Q := 9 # 1000000.
Definition METERS_TO_LON : Q := 125 # 10000000.
Definition BOW_HEIGHT : Q := 2.

(** [get_auth_token()]: the ['token'] entry of the login response, [None]
    when the entry is missing or the request raises. *)
Definition get_auth_token : M json :=
  r <- ask env AuthLogin ;;
  match r with
  | Ok body => ret (dict_get "token" body JNull)
  | _ => ret JNull
  end.

(** [get_signalk_value(path, token=None)] *)
Definition get_signalk_value (path : string) (token : json) : M json :=
  token <- match token with
           | JNull => get_auth_token
           | _ => ret token
           end ;;
  if negb (json_truthy token) then ret JNull
  else
    r <- ask env (SignalKPath path) ;;
    match r with
    | Ok value => ret value
    | _ => ret JNull
    end.

(** [get_position(token=None)] *)
Definition get_position (token : json) : M json :=
  get_signalk_value "navigation/position/value" token.

(** [calculate_distance(lat1, lon1, lat2, lon2)] returns the square root of
    this sum of squares. *)
Definition calculate_distance_squared (lat1 lon1 lat2 lon2 : Q) : Q :=
  let dlat := ((lat2 - lat1) / METERS_TO_LAT)%Q in
  let dlon := ((lon2 - lon1) / METERS_TO_LON)%Q in
  (dlat * dlat + dlon * dlon)%Q.

End WithEnv.
End Common.

(** ** test/scripts/overnight_test_runner.py *)

Section Runner.

Variable env : Env.

(** [get_auth_token()] *)
Definition get_auth_token : M json :=
  r <- ask env AuthLogin ;;
  match r with
  | Ok body => ret (dict_get "token" body JNull)
  | _ => log_test LogTokenError ;; ret JNull
  end.

(** [verify_server()] *)
Definition verify_server : M bool :=
  r <- ask env ServerRoot ;;
  match r with
  | Ok _ => token <- get_auth_token ;; ret (json_truthy token)
  | _ => ret false
  end.

(** [check_chain_controller()]: the health check.  The controller is live
    when the ['$source'] of the rode reading starts with ['ws.']; a source
    that is not a string makes [startswith] raise, which is caught. *)
Definition check_chain_controller : M (bool * string) :=
  token <- get_auth_token ;;
  if negb (json_truthy token) then ret (false, "No auth token"%string)
  else
    r <- ask env RodeDeployed ;;
    match r with
    | Ok data =>
        match dict_get "$source" data (JStr "") with
        | JStr source =>
            if String.prefix "ws." source
            then ret (true, ("Connected via " ++ String.substring 0 20 source ++ "...")%string)
            else ret (false, ("Unexpected source: " ++ source)%string)
        | _ => ret (false, "AttributeError"%string)
        end
    | HttpError _ => ret (false, "HTTPError"%string)
    | NoResponse => ret (false, "URLError"%string)
    end.

(** The [for attempt in range(n)] loop of [restart_chain_controller] with
    the two statements that follow it. *)
Fixpoint reconnect (attempts : nat) : M bool :=
  match attempts with
  | O => log_test LogNoReconnect ;; ret false
  | S rest =>
      r <- check_chain_controller ;;
      if fst r
      then log_test (LogReconnected (snd r)) ;; ret true
      else sleep 3000 ;; reconnect rest
  end.

(** [restart_chain_controller()] *)
Definition restart_chain_controller : M bool :=
  log_test LogRestarting ;;
  r <- ask env DeviceRestart ;;
  match r with
  | Ok _ =>
      log_test LogWaitRestart ;;
      sleep 15000 ;;
      reconnect 5
  | _ => log_test LogRestartFailed ;; ret false
  end.

(** [ensure_chain_controller()] *)
Definition ensure_chain_controller : M bool :=
  r <- check_chain_controller ;;
  if fst r then ret true
  else log_test (LogControllerDown (snd r)) ;; restart_chain_controller.

(** [reset_anchor()]: the script's exit status is not looked at; only a
    timeout or a failure to start raises. *)
Definition reset_anchor : M bool :=
  r <- ask env ResetAnchorScript ;;
  match r with
  | Ok _ => sleep 3000 ;; ret true
  | _ => ret false
  end.

(** [stop_chain()] *)
Definition stop_chain : M bool :=
  r <- ask env StopChainScript ;;
  match r with
  | Ok _ => sleep 1000 ;; ret true
  | _ => ret false
  end.

(** [configure_environment(wind_speed, depth)]: the reply of the
    environment does not depend on the body of the request. *)
Definition configure_environment (wind_speed depth : Z) : M bool :=
  token <- get_auth_token ;;
  if negb (json_truthy token) then ret false
  else
    r <- ask env SimulationConfig ;;
    match r with
    | Ok result => ret (match result with JNull => false | _ => true end)
    | _ => log_test LogConfigError ;; ret false
    end.

(** [get_simulation_state(token)] *)
Definition get_simulation_state (token : json) : M (option dict) :=
  r <- ask env SimulationState ;;
  match r with
  | Ok state => ret (Some state)
  | _ => ret None
  end.

(** [reset_simulation()] *)
Definition reset_simulation : M bool :=
  token <- get_auth_token ;;
  if negb (json_truthy token) then ret false
  else
    r <- ask env SimulationReset ;;
    match r with
    | Ok _ => ret true
    | _ => log_test LogSimResetError ;; ret false
    end.

(** [get_position(token)] *)
Definition get_position (token : json) : M (option Position) :=
  r <- ask env NavPosition ;;
  match r with
  | Ok pos => ret (Some pos)
  | _ => ret None
  end.

(** [get_speed(token)] *)
Definition get_speed (token : json) : M (option Q) :=
  r <- ask env NavSpeed ;;
  match r with
  | Ok v => ret (Some v)
  | _ => ret None
  end.

(** [get_heading(token)]: radians to degrees. *)
Definition get_heading (token : json) : M (option Q) :=
  r <- ask env NavHeading ;;
  match r with
  | Ok rad => ret (Some (rad * 180 / math_pi)%Q)
  | _ => ret None
  end.

(** [send_command(token, command)] *)
Definition send_command (token : json) (command : TestType) : M dict :=
  r <- ask env AnchorCommand ;;
  match r with
  | Ok result => ret result
  | HttpError _ => ret [("error"%string, JStr "HTTPError")]
  | NoResponse => ret [("error"%string, JStr "URLError")]
  end.

(** [collect_sample(token, start_pos, start_lat, start_lon, start_time)] *)
Definition collect_sample (token : json) (start_pos : Position)
    (start_lat start_lon : Q) (start_time : Z) : M (option Sample) :=
  pos <- get_position token ;;
  speed <- get_speed token ;;
  heading <- get_heading token ;;
  sim_state <- get_simulation_state token ;;
  match pos, speed, heading with
  | Some pos, Some speed, Some heading =>
      if Q_truthy heading then
        t <- now ;;
        let elapsed := t - start_time in
        let lat_delta := ((latitude pos - start_lat) / (9 # 1000000))%Q in
        ret (Some {|
          timestamp := t;
          elapsed_sec := elapsed;
          position := {|
            sample_latitude := latitude pos;
            sample_longitude := longitude pos;
            speed := speed;
            heading := if Q_truthy heading then mod360 heading else 0%Q |};
          distance_from_start := lat_delta;
          simulation_state :=
            match sim_state with
            | Some state => if dict_truthy state then Some state else None
            | None => None
            end |})
      else ret None
  | _, _, _ => ret None
  end.

(** [update_progress(test_num, wind, depth, test_type, status)] *)
Definition update_progress (test_num : nat) (wind depth : Z)
    (test_type : TestType) (status : ProgressStatus) : M unit :=
  fun w =>
    (tt, set_progress_file (Some {|
           progress_test := test_num;
           progress_wind := wind;
           progress_depth := depth;
           progress_type := test_type;
           progress_status := status;
           progress_completed := tests_completed w;
           progress_passed := tests_passed w;
           progress_failed := tests_failed w |}) w).

(** [samples[-1]] *)
Fixpoint last_sample (samples : list Sample) : option Sample :=
  match samples with
  | [] => None
  | [s] => Some s
  | _ :: rest => last_sample rest
  end.

(** [sample.get('simulation_state', {})] *)
Definition sample_sim_state (s : Sample) : dict :=
  match simulation_state s with
  | Some state => state
  | None => []
  end.

(** Outcome of the termination check at the end of a loop iteration:
    fall through, [break] (with the line logged), or an exception. *)
Inductive Check :=
| Continue
| Break (entry : LogEntry)
| Raise.

(** The block under [# Check termination conditions]. *)
Definition check_termination (test_type : TestType) (samples : list Sample) : Check :=
  match last_sample samples with
  | None => Continue
  | Some latest =>
      match test_type with
      | autoDrop =>
          let sim_state := sample_sim_state latest in
          let scope := dict_get "scopeRatio" sim_state (JNum 0) in
          match py_number scope with
          | Some v =>
              if Qle_bool 5 v then
                (* the log line is formatted before the [break] *)
                if float_overflow v then Raise else Break (LogTargetScope scope)
              else Continue
          | None => Raise
          end
      | autoRetrieve =>
          let sim_state := sample_sim_state latest in
          let rode := dict_get "rodeDeployed" sim_state (JNum 0) in
          match py_number rode with
          | Some v =>
              if Qle_bool v (1 # 10) then
                if float_overflow v then Raise else Break (LogRodeRetrieved rode)
              else Continue
          | None => Raise
          end
      end
  end.

(** How the sampling loop was left.  The Python function does not record
    it; it is kept here to state properties about it.  The loop has a
    fourth handler, [except KeyboardInterrupt], for a user interrupt, which
    the embedding leaves out. *)
Inductive LoopExit :=
| ConditionMet      (* break *)
| TimedOut          (* the while condition became false *)
| CollectionError   (* except Exception *)
| OutOfFuel.        (* not an outcome of the program: see [sample_loop_fuel] *)

(** The body of the [while] loop up to the termination check: take a
    sample when one is due, then sleep 100 ms.  Returns the samples and the
    next sample time. *)
Definition sample_tick (token : json) (start_pos : Position)
    (start_lat start_lon : Q) (test_start next_sample_time : Z)
    (samples : list Sample) : M (list Sample * Z) :=
  now_ <- now ;;
  r <- (if next_sample_time <=? now_ then
          sample <- collect_sample token start_pos start_lat start_lon test_start ;;
          ret (match sample with
               | Some s => samples ++ [s]
               | None => samples
               end, now_ + SAMPLE_INTERVAL)
        else ret (samples, next_sample_time)) ;;
  sleep 100 ;;
  ret r.

(** The [while] loop of [run_test] inside its [try], one iteration per unit
    of fuel. *)
Fixpoint sample_loop (fuel : nat) (test_type : TestType) (token : json)
    (start_pos : Position) (start_lat start_lon : Q)
    (test_start max_duration next_sample_time : Z) (samples : list Sample)
    : M (list Sample * LoopExit) :=
  match fuel with
  | O => ret (samples, OutOfFuel)
  | S fuel' =>
      t <- now ;;
      if t - test_start <? max_duration then
        r <- sample_tick token start_pos start_lat start_lon test_start
               next_sample_time samples ;;
        match check_termination test_type (fst r) with
        | Break entry => log_test entry ;; ret (fst r, ConditionMet)
        | Raise => log_test LogCollectionError ;; ret (fst r, CollectionError)
        | Continue =>
            sample_loop fuel' test_type token start_pos start_lat start_lon
              test_start max_duration (snd r) (fst r)
        end
      else ret (samples, TimedOut)
  end.

(** Every iteration sleeps 100 ms, so the loop body runs at most
    [max_duration / 100] times before the condition fails. *)
Definition sample_loop_fuel : nat := S (Z.to_nat (TEST_TIMEOUT / 100)).

(** [max([...])] of a non-empty list, first maximum kept. *)
Definition max_list (first : Q) (rest : list Q) : Q :=
  fold_left (fun m x => if Qle_bool x m then m else x) rest first.

(** The ['summary'] block, computed when there are samples. *)
Definition make_summary (samples : list Sample) : option Summary :=
  match last_sample samples, samples with
  | Some final_sample, first :: rest =>
      let sim_state := sample_sim_state final_sample in
      Some {|
        final_scope := dict_get "scopeRatio" sim_state (JNum 0);
        final_rode := dict_get "rodeDeployed" sim_state (JNum 0);
        final_distance := distance_from_start final_sample;
        max_speed := max_list (speed (position first))
                       (map (fun s => speed (position s)) rest);
        final_speed := speed (position final_sample) |}
  | _, _ => None
  end.

(** [json.dump(test_data, f)] into a new file of raw_data/. *)
Definition save_test_data (td : TestData) : M unit :=
  fun w => (tt, set_raw_data (raw_data w ++ [td]) w).

(** What [run_test] returns: [None] from one of its six early returns, or
    the test data (with the way the loop was left).  On the replies of an
    [Env] it always returns. *)
Inductive RunResult :=
| Aborted (p : Phase)
| Saved (exit : LoopExit) (test_data : TestData).

(** The four statements of every early return of [run_test]. *)
Definition fail_test (p : Phase) : M RunResult :=
  log_test (LogFailed p) ;;
  count_failed ;;
  count_completed ;;
  ret (Aborted p).

(** [run_test(test_num, wind_speed, depth, test_type)] *)
Definition run_test (test_num : nat) (wind_speed depth : Z)
    (test_type : TestType) : M RunResult :=
  log_test (LogTestHeader test_num test_type wind_speed depth) ;;
  update_progress test_num wind_speed depth test_type RUNNING ;;
  token <- get_auth_token ;;
  if negb (json_truthy token) then fail_test PhaseAuth else
  (* Phase 0 *)
  log_test (LogPhase 0) ;;
  ready <- ensure_chain_controller ;;
  if negb ready then fail_test PhaseController else
  log_test (LogPhaseOk 0) ;;
  (* Phase 1 *)
  log_test (LogPhase 1) ;;
  stopped <- stop_chain ;;
  not_reset <- (if negb stopped then ret true
                else r <- reset_anchor ;; ret (negb r)) ;;
  if not_reset then fail_test PhaseResetAnchor else
  log_test (LogPhaseOk 1) ;;
  (* Phase 2 *)
  log_test (LogPhase 2) ;;
  configured <- configure_environment wind_speed depth ;;
  if negb configured then fail_test PhaseConfigure else
  sim_reset <- reset_simulation ;;
  (if negb sim_reset then log_test LogSimResetWarning else ret tt) ;;
  sleep 1000 ;;
  log_test (LogPhaseOk 2) ;;
  (* Phase 3 *)
  log_test (LogPhase 3) ;;
  start_time_ <- now ;;
  start_pos <- get_position token ;;
  match start_pos with
  | None => fail_test PhaseStartPosition
  | Some start_pos =>
      let start_lat := latitude start_pos in
      let start_lon := longitude start_pos in
      result <- send_command token test_type ;;
      if dict_has "error" result then fail_test PhaseCommand else
      log_test (LogPhaseOk 3) ;;
      test_start <- now ;;
      let next_sample_time := test_start + SAMPLE_INTERVAL in
      let max_duration := match test_type with
                          | autoDrop => TEST_TIMEOUT
                          | autoRetrieve => TEST_TIMEOUT
                          end in
      collected <- sample_loop sample_loop_fuel test_type token start_pos
                     start_lat start_lon test_start max_duration
                     next_sample_time [] ;;
      let samples_ := fst collected in
      (* Phase 4 *)
      log_test (LogSaving (List.length samples_)) ;;
      end_time_ <- now ;;
      let test_data := {|
        test_metadata := {|
          test_number := test_num;
          test_type := test_type;
          wind_speed_kn := wind_speed;
          wind_direction := 180;
          depth_m := depth;
          target_scope := 5;
          start_time := start_time_;
          end_time := end_time_;
          duration_sec := end_time_ - start_time_;
          sample_count := List.length samples_;
          completed := true;
          timeout := Nat.eqb (List.length samples_) 0 |};
        samples := samples_;
        summary := make_summary samples_ |} in
      save_test_data test_data ;;
      log_test LogSaved ;;
      let passed := Nat.ltb 0 (List.length samples_)
                    && match summary test_data with
                       | Some _ => true
                       | None => false
                       end in
      (if passed then count_passed ;; log_test (LogVerdict true)
       else count_failed ;; log_test (LogVerdict false)) ;;
      count_completed ;;
      update_progress test_num wind_speed depth test_type
        (if passed then DONE else FAILED) ;;
      ret (Saved (snd collected) test_data)
  end.

(** The test matrix in the order the nested loops generate it. *)
Definition test_matrix : list (Z * Z * TestType) :=
  flat_map (fun wind =>
    flat_map (fun depth =>
      map (fun test_type => (wind, depth, test_type)) TEST_TYPES) DEPTHS)
    WIND_SPEEDS.

(** The [for wind, depth, test_type in test_matrix] loop, from test number
    [test_num] on. *)
Fixpoint run_matrix (tests : list (Z * Z * TestType)) (test_num : nat) : M unit :=
  match tests with
  | [] => ret tt
  | (wind, depth, test_type) :: rest =>
      run_test test_num wind depth test_type ;;
      sleep 2000 ;;
      run_matrix rest (S test_num)
  end.

(** How [run_all_tests] ends: [sys.exit(1)] before the first test, or after
    the summary. *)
Inductive SessionEnd := ExitFailure | Finished.

(** [run_all_tests()] *)
Definition run_all_tests : M SessionEnd :=
  up <- verify_server ;;
  if negb up then ret ExitFailure else
  r <- check_chain_controller ;;
  ready <- (if fst r then ret true else restart_chain_controller) ;;
  if negb ready then ret ExitFailure else
  run_matrix test_matrix 1 ;;
  (fun w => log_test (LogSummary total_tests (tests_completed w)
                        (tests_passed w) (tests_failed w)) w) ;;
  ret Finished.

End Runner.

(** * Vocabulary of the properties *)

(** A command run from a world satisfying [P] ends with a result and a world
    satisfying [Q]. *)
Definition hoare {A} (P : World -> Prop) (c : M A) (Q : A -> World -> Prop) : Prop :=
  forall w, P w -> Q (fst (c w)) (snd (c w)).

(** A command leaves an observation of the world unchanged. *)
Definition stable {X A} (f : World -> X) (c : M A) : Prop :=
  forall w, f (snd (c w)) = f w.

(** A command never turns the clock back. *)
Definition forward {A} (c : M A) : Prop :=
  forall w, clock w <= clock (snd (c w)).

(** A command never lowers a count read off the world. *)
Definition grows {A} (f : World -> nat) (c : M A) : Prop :=
  forall w, (f w <= f (snd (c w)))%nat.

(** The three global counters: completed, passed, failed. *)
Definition counters (w : World) : nat * nat * nat :=
  (tests_completed w, tests_passed w, tests_failed w).

(** The counters after a test that started with counters [c0], scored
    [passed]. *)
Definition scored (c0 : nat * nat * nat) (passed : bool) (w' : World) : Prop :=
  let '(c, p, f) := c0 in
  counters w' = if passed then (S c, S p, f) else (S c, p, S f).

(** What [run_test] guarantees, from counters [c0]. *)
Definition run_test_post (c0 : nat * nat * nat) (r : RunResult) (w' : World) : Prop :=
  match r with
  | Aborted _ => scored c0 false w'
  | Saved exit td =>
      exit <> OutOfFuel /\
      completed (test_metadata td) = true /\
      timeout (test_metadata td) = Nat.eqb (List.length (samples td)) 0 /\
      sample_count (test_metadata td) = List.length (samples td) /\
      scored c0 (negb (Nat.eqb (List.length (samples td)) 0)) w'
  end.

(** Did the test end with at least one sample on record? *)
Definition has_samples (r : RunResult) : bool :=
  match r with
  | Aborted _ => false
  | Saved _ td => negb (Nat.eqb (List.length (samples td)) 0)
  end.

(** The test data [run_test] returned, if any. *)
Definition saved (r : RunResult) : option TestData :=
  match r with
  | Aborted _ => None
  | Saved _ td => Some td
  end.

(** Does the termination check fire on a run whose latest sample is [s]? *)
Definition completes (t : TestType) (s : Sample) : bool :=
  match check_termination t [s] with
  | Break _ => true
  | _ => false
  end.

(** *** The reconnection polls of the health monitor *)

(** Is the restart request of [restart_chain_controller] answered? *)
Definition restart_accepted (env : Env) (w : World) : bool :=
  match fst (ask env DeviceRestart w) with
  | Ok _ => true
  | _ => false
  end.

(** The world in which the first poll is made: the restart request has been
    answered and the 15 s have passed. *)
Definition settled (env : Env) (w : World) : World :=
  snd (sleep 15000
    (snd (log_test LogWaitRestart
      (snd (ask env DeviceRestart
        (snd (log_test LogRestarting w))))))).

(** The world after [k] polls that failed, each followed by its 3 s. *)
Fixpoint after_failed_polls (env : Env) (k : nat) (w : World) : World :=
  match k with
  | O => w
  | S k' =>
      after_failed_polls env k'
        (snd (sleep 3000 (snd (check_chain_controller env w))))
  end.

(** The outcome of the poll that follows [k] failed ones. *)
Definition poll_ok (env : Env) (k : nat) (w : World) : bool :=
  fst (fst (check_chain_controller env (after_failed_polls env k w))).

(** The times at which endpoint [e] was called, in a history of calls. *)
Definition issued (e : Endpoint) (history : list (Endpoint * Z)) : list Z :=
  map snd (filter (fun c => Endpoint_eqb e (fst c)) history).

(** The time at which the restart request of [restart_chain_controller]
    made from [w] is answered, or given up. *)
Definition restart_answered (env : Env) (w : World) : Z :=
  clock (snd (ask env DeviceRestart w)).

(** The token [get_signalk_value] works with: the one it was given or,
    given [None], what the login delivers ([None] when the login fails or
    its reply holds no token). *)
Definition token_in_hand (env : Env) (token : json) (w : World) : json :=
  match token with
  | JNull =>
      match fst (ask env AuthLogin w) with
      | Ok body => dict_get "token" body JNull
      | _ => JNull
      end
  | _ => token
  end.

(** *** The checks of a test

    The early return at which a test ended, if it ended at one. *)
Definition abort_phase (r : RunResult) : option Phase :=
  match r with
  | Aborted p => Some p
  | Saved _ _ => None
  end.

(** The checks a TestCase has to pass before it is sampled, in the order
    the phases name them, with the first that fails: the login, the health
    check (with its restart attempt), the stop and the reset of the anchor,
    the configuration, the read of the start position and the command.  The
    reset of the simulation is made but its outcome is not a check. *)
Definition preflight (env : Env) (wind_speed depth : Z) (test_type : TestType)
    : M (option Phase) :=
  token <- get_auth_token env ;;
  if negb (json_truthy token) then ret (Some PhaseAuth) else
  ready <- ensure_chain_controller env ;;
  if negb ready then ret (Some PhaseController) else
  stopped <- stop_chain env ;;
  reset <- (if stopped then reset_anchor env else ret false) ;;
  if negb reset then ret (Some PhaseResetAnchor) else
  configured <- configure_environment env wind_speed depth ;;
  if negb configured then ret (Some PhaseConfigure) else
  reset_simulation env ;;
  sleep 1000 ;;
  start_pos <- get_position env token ;;
  match start_pos with
  | None => ret (Some PhaseStartPosition)
  | Some _ =>
      result <- send_command env token test_type ;;
      if dict_has "error" result then ret (Some PhaseCommand) else ret None
  end.

(** Two worlds in which the same calls have been made at the same times:
    what a reply can depend on. *)
Definition same_requests (w1 w2 : World) : Prop :=
  clock w1 = clock w2 /\ ncalls w1 = ncalls w2 /\ calls w1 = calls w2.

(** Two commands that, started from such worlds, end in such worlds with
    results related by [Q]. *)
Definition related {A B} (c1 : M A) (c2 : M B) (Q : A -> B -> Prop) : Prop :=
  forall w1 w2, same_requests w1 w2 ->
    Q (fst (c1 w1)) (fst (c2 w2)) /\ same_requests (snd (c1 w1)) (snd (c2 w2)).

(** The same for the end of two runs, where the worlds may part. *)
Definition agree {A B} (c1 : M A) (c2 : M B)
    (Q : A -> B -> World -> World -> Prop) : Prop :=
  forall w1 w2, same_requests w1 w2 ->
    Q (fst (c1 w1)) (fst (c2 w2)) (snd (c1 w1)) (snd (c2 w2)).

(** A command that makes no call and takes no time. *)
Definition silent {A} (c : M A) : Prop :=
  forall w, same_requests (snd (c w)) w.

(** The checks [run_all_tests] makes before the first test: the server is
    up and gives a token, and the controller is live or comes back after a
    restart. *)
Definition session_preflight (env : Env) : M bool :=
  up <- verify_server env ;;
  if negb up then ret false else
  r <- check_chain_controller env ;;
  if fst r then ret true else restart_chain_controller env.

(** ** Scenarios *)

(** Everything answers within 20 ms.  The controller is connected through
    ['ws.device1'], the boat lies still heading one radian, and the
    simulator lets the rode grow by half a metre per reading over 5 m of
    depth plus bow height, so the scope reaches 5.0 at the 50th reading. *)
Definition env_nominal : Env := {|
  respond := fun e =>
    match e return nat -> Reply (payload e) with
    | AuthLogin => fun _ => Ok [("token"%string, JStr "jwt")]
    | RodeDeployed => fun _ =>
        Ok [("value"%string, JNum 0); ("$source"%string, JStr "ws.device1")]
    | DeviceRestart => fun _ => Ok tt
    | SimulationConfig => fun _ => Ok (JObj [("environment"%string, JObj [])])
    | SimulationState => fun n =>
        Ok [("scopeRatio"%string, JNum (Z.of_nat (S n) # 10));
            ("rodeDeployed"%string, JNum (Z.of_nat (S n) # 2))]
    | SimulationReset => fun _ => Ok tt
    | NavPosition => fun _ => Ok {| latitude := 436 # 10; longitude := - (794 # 10) |}
    | NavSpeed => fun _ => Ok (3 # 10)
    | NavHeading => fun _ => Ok 1%Q
    | AnchorCommand => fun _ => Ok [("state"%string, JStr "COMPLETED")]
    | ServerRoot => fun _ => Ok tt
    | StopChainScript => fun _ => Ok tt
    | ResetAnchorScript => fun _ => Ok tt
    | SignalKPath _ => fun _ => Ok (JNum 1)
    end;
  latency := fun _ _ => 20 |}.

(** Nothing answers. *)
Definition env_silent : Env := {|
  respond := fun e => fun _ => NoResponse;
  latency := fun _ _ => 20 |}.

(** The chain is jammed at a scope of 3.2 and every position read takes
    four seconds. *)
Definition env_jammed : Env := {|
  respond := fun e =>
    match e return nat -> Reply (payload e) with
    | SimulationState => fun _ =>
        Ok [("scopeRatio"%string, JNum (32 # 10)); ("rodeDeployed"%string, JNum 16)]
    | e' => respond env_nominal e'
    end;
  latency := fun e _ => match e with NavPosition => 4000 | _ => 20 end |}.

(** The position is read twice (the start position and one sample); after
    that the telemetry is gone. *)
Definition env_telemetry_lost : Env := {|
  respond := fun e =>
    match e return nat -> Reply (payload e) with
    | NavPosition => fun n =>
        if Nat.ltb n 2 then respond env_nominal NavPosition n else NoResponse
    | e' => respond env_nominal e'
    end;
  latency := latency env_nominal |}.

(** The first read of the simulator state gets no answer; afterwards the
    simulator reports 50 m of rode. *)
Definition env_state_missing : Env := {|
  respond := fun e =>
    match e return nat -> Reply (payload e) with
    | SimulationState => fun n =>
        match n with
        | O => NoResponse
        | _ => Ok [("scopeRatio"%string, JNum 10); ("rodeDeployed"%string, JNum 50)]
        end
    | e' => respond env_nominal e'
    end;
  latency := latency env_nominal |}.

(** The first read of a path is refused with 401; a second would succeed. *)
Definition env_unauthorized : Env := {|
  respond := fun e =>
    match e return nat -> Reply (payload e) with
    | SignalKPath _ => fun n =>
        match n with
        | O => HttpError 401
        | _ => Ok (JNum 1)
        end
    | e' => respond env_nominal e'
    end;
  latency := latency env_nominal |}.

(** The controller is not connected and its restart endpoint is down. *)
Definition env_restart_refused : Env := {|
  respond := fun e =>
    match e return nat -> Reply (payload e) with
    | RodeDeployed => fun _ => Ok [("value"%string, JNum 0); ("$source"%string, JStr "")]
    | DeviceRestart => fun _ => NoResponse
    | e' => respond env_nominal e'
    end;
  latency := latency env_nominal |}.

(** The controller reconnects in time for the third poll after a restart. *)
Definition env_reconnects : Env := {|
  respond := fun e =>
    match e return nat -> Reply (payload e) with
    | RodeDeployed => fun n =>
        if Nat.ltb n 2
        then Ok [("value"%string, JNum 0); ("$source"%string, JStr "signalk-server")]
        else respond env_nominal RodeDeployed n
    | e' => respond env_nominal e'
    end;
  latency := latency env_nominal |}.

(** The simulation reset is refused. *)
Definition env_sim_reset_fails : Env := {|
  respond := fun e =>
    match e return nat -> Reply (payload e) with
    | SimulationReset => fun _ => HttpError 500
    | e' => respond env_nominal e'
    end;
  latency := latency env_nominal |}.

(** The simulator reports a null scope ratio. *)
Definition env_null_scope : Env := {|
  respond := fun e =>
    match e return nat -> Reply (payload e) with
    | SimulationState => fun _ =>
        Ok [("scopeRatio"%string, JNull); ("rodeDeployed"%string, JNum 0)]
    | e' => respond env_nominal e'
    end;
  latency := latency env_nominal |}.

(** The boat heads due north and does not move. *)
Definition env_heading_north : Env := {|
  respond := fun e =>
    match e return nat -> Reply (payload e) with
    | NavHeading => fun _ => Ok 0%Q
    | NavSpeed => fun _ => Ok 0%Q
    | e' => respond env_nominal e'
    end;
  latency := latency env_nominal |}.

(** The boat has drifted south and east of the start. *)
Definition env_drifted : Env := {|
  respond := fun e =>
    match e return nat -> Reply (payload e) with
    | NavPosition => fun _ =>
        Ok {| latitude := 435999 # 10000; longitude := - (79399 # 1000) |}
    | e' => respond env_nominal e'
    end;
  latency := latency env_nominal |}.

(** The record of the run that lost its telemetry after one sample and ran
    to the timeout. *)
Definition telemetry_lost_run : RunResult :=
  fst (run_test env_telemetry_lost 1 8 3 autoDrop (initial_world 0)).

Definition telemetry_lost_data : TestData :=
  match telemetry_lost_run with
  | Saved _ td => td
  | Aborted _ =>
      {| test_metadata :=
           {| test_number := 0; test_type := autoDrop; wind_speed_kn := 0;
              wind_direction := 0; depth_m := 0; target_scope := 0;
              start_time := 0; end_time := 0; duration_sec := 0;
              sample_count := 0; completed := false; timeout := false |};
         samples := []; summary := None |}
  end.

(** The sample taken after the drift south and east. *)
Definition drifted_sample : Sample :=
  {| timestamp := 80;
     elapsed_sec := 80;
     position := {| sample_latitude := 435999 # 10000;
                    sample_longitude := - (79399 # 1000);
                    speed := 3 # 10;
                    heading := mod360 (1 * 180 / math_pi) |};
     distance_from_start := ((435999 # 10000) - (436 # 10)) / (9 # 1000000);
     simulation_state :=
       Some [("scopeRatio"%string, JNum (1 # 10));
             ("rodeDeployed"%string, JNum (1 # 2))] |}.

(** What the runner leaves on disk and sends to the winch: the records, the
    progress file, and the number of anchor commands sent. *)
Definition session_view (w : World) : list TestData * option Progress * nat :=
  (raw_data w, progress_file w, ncalls w AnchorCommand).

(** The progress file as written with the given status while the counters
    are those of [w]. *)
Definition progress_of (n : nat) (wind depth : Z) (t : TestType)
    (status : ProgressStatus) (w : World) : Progress :=
  {| progress_test := n;
     progress_wind := wind;
     progress_depth := depth;
     progress_type := t;
     progress_status := status;
     progress_completed := tests_completed w;
     progress_passed := tests_passed w;
     progress_failed := tests_failed w |}.

(** The matrix the three nested [for] loops of [run_all_tests] build from
    their lists. *)
Definition matrix_of (winds depths : list Z) (types : list TestType)
    : list (Z * Z * TestType) :=
  flat_map (fun wind =>
    flat_map (fun depth =>
      map (fun test_type => (wind, depth, test_type)) types) depths)
    winds.

(** Everything a test can change for the session: the counters, the
    records, the progress file and the commands sent. *)
Definition session_state (w : World)
    : nat * nat * nat * (list TestData * option Progress * nat) :=
  (counters w, session_view w).

(** The nominal deployment, which completes at its 50th sample. *)
Definition nominal_drop_run : RunResult :=
  fst (run_test env_nominal 1 8 3 autoDrop (initial_world 0)).

Definition nominal_drop_data : TestData :=
  match nominal_drop_run with
  | Saved _ td => td
  | Aborted _ => telemetry_lost_data
  end.

(** * Properties *)

(** ** Reasoning about commands *)

Lemma hoare_bind {A B} (P : World -> Prop) (c : M A) (Q : A -> World -> Prop)
    (k : A -> M B) (R : B -> World -> Prop) :
  hoare P c Q -> (forall a, hoare (Q a) (k a) R) -> hoare P (bind c k) R.
Proof.
  intros Hc Hk w Hw. unfold bind.
  specialize (Hc w Hw). destruct (c w) as [a w1]. simpl in Hc.
  apply Hk. exact Hc.
Qed.

Lemma hoare_ret {A} (P : World -> Prop) (a : A) (Q : A -> World -> Prop) :
  (forall w, P w -> Q a w) -> hoare P (ret a) Q.
Proof. intros H w Hw. simpl. auto. Qed.

Lemma hoare_consequence {A} (P P' : World -> Prop) (c : M A) (Q Q' : A -> World -> Prop) :
  hoare P' c Q' -> (forall w, P w -> P' w) -> (forall a w, Q' a w -> Q a w) ->
  hoare P c Q.
Proof. intros H HP HQ w Hw. apply HQ, H, HP, Hw. Qed.

Lemma stable_hoare {X A} (f : World -> X) (c : M A) (x : X) :
  stable f c -> hoare (fun w => f w = x) c (fun _ w => f w = x).
Proof. intros H w Hw. rewrite H. exact Hw. Qed.

Lemma stable_ret {X A} (f : World -> X) (a : A) : stable f (ret a).
Proof. intros w. reflexivity. Qed.

Lemma stable_bind {X A B} (f : World -> X) (c : M A) (k : A -> M B) :
  stable f c -> (forall a, stable f (k a)) -> stable f (bind c k).
Proof.
  intros Hc Hk w. unfold bind.
  specialize (Hc w). destruct (c w) as [a w1]. simpl in Hc.
  rewrite Hk. exact Hc.
Qed.

Lemma forward_ret {A} (a : A) : forward (ret a).
Proof. intros w. simpl. lia. Qed.

Lemma forward_bind {A B} (c : M A) (k : A -> M B) :
  forward c -> (forall a, forward (k a)) -> forward (bind c k).
Proof.
  intros Hc Hk w. unfold bind.
  specialize (Hc w). destruct (c w) as [a w1]. simpl in Hc.
  specialize (Hk a w1). lia.
Qed.

(** *** The primitive commands *)

Lemma ask_reply env e w :
  fst (ask env e w) = NoResponse \/ fst (ask env e w) = respond env e (ncalls w e).
Proof.
  unfold ask. destruct (call_timeout e <=? _); simpl; auto.
Qed.

Lemma ask_ncalls env e w e' :
  ncalls (snd (ask env e w)) e' =
  if Endpoint_eqb e e' then S (ncalls w e) else ncalls w e'.
Proof.
  unfold ask. destruct (call_timeout e <=? _); reflexivity.
Qed.

(** Every call is recorded with the time at which it is issued. *)
Lemma ask_calls env e w : calls (snd (ask env e w)) = calls w ++ [(e, clock w)].
Proof. unfold ask. destruct (call_timeout e <=? _); reflexivity. Qed.

Lemma ask_counters env e : stable counters (ask env e).
Proof.
  intros w. unfold ask. destruct (call_timeout e <=? _); reflexivity.
Qed.

Lemma ask_forward env e : forward (ask env e).
Proof.
  intros w. unfold ask.
  assert (0 < call_timeout e) by (destruct e; reflexivity).
  destruct (call_timeout e <=? _); simpl; lia.
Qed.

(** The reply to a call depends on the world only through the number of
    earlier calls of the same endpoint. *)
Lemma ask_reply_ncalls env e w w' :
  ncalls w e = ncalls w' e -> fst (ask env e w) = fst (ask env e w').
Proof.
  intros H. unfold ask. rewrite H.
  destruct (call_timeout e <=? _); reflexivity.
Qed.

Lemma Endpoint_eqb_refl e : Endpoint_eqb e e = true.
Proof. destruct e; simpl; auto using String.eqb_refl. Qed.

Lemma sleep_counters ms : stable counters (sleep ms).
Proof. intros w. reflexivity. Qed.

Lemma log_test_counters m : stable counters (log_test m).
Proof. intros w. reflexivity. Qed.

Lemma now_counters : stable counters now.
Proof. intros w. reflexivity. Qed.

Lemma now_forward : forward now.
Proof. intros w. simpl. lia. Qed.

Lemma log_test_forward m : forward (log_test m).
Proof. intros w. simpl. lia. Qed.

Lemma sleep_forward ms : 0 <= ms -> forward (sleep ms).
Proof. intros H w. simpl. lia. Qed.

Create HintDb stable discriminated.
#[local] Hint Resolve ask_counters sleep_counters log_test_counters now_counters : stable.

(** Decompose a goal [stable f c] or [forward c] along the structure of [c]. *)
Ltac split_command :=
  repeat first
    [ apply stable_ret
    | apply forward_ret
    | apply stable_bind; [ | intros ? ]
    | apply forward_bind; [ | intros ? ]
    | solve [ auto with stable ]
    | match goal with
      | |- stable _ (match ?x with _ => _ end) => destruct x
      | |- forward (match ?x with _ => _ end) => destruct x
      end ].

(** *** The helpers of the runner leave the counters alone *)

Section Frames.

Variable env : Env.

Lemma get_auth_token_counters : stable counters (get_auth_token env).
Proof. unfold get_auth_token. split_command. Qed.

Lemma check_chain_controller_counters : stable counters (check_chain_controller env).
Proof.
  pose proof get_auth_token_counters.
  unfold check_chain_controller. split_command.
Qed.

Lemma reconnect_counters n : stable counters (reconnect env n).
Proof.
  pose proof check_chain_controller_counters.
  induction n; simpl; split_command.
Qed.

Lemma restart_chain_controller_counters : stable counters (restart_chain_controller env).
Proof.
  pose proof (reconnect_counters 5).
  unfold restart_chain_controller. split_command.
Qed.

Lemma ensure_chain_controller_counters : stable counters (ensure_chain_controller env).
Proof.
  pose proof check_chain_controller_counters.
  pose proof restart_chain_controller_counters.
  unfold ensure_chain_controller. split_command.
Qed.

Lemma stop_chain_counters : stable counters (stop_chain env).
Proof. unfold stop_chain. split_command. Qed.

Lemma reset_anchor_counters : stable counters (reset_anchor env).
Proof. unfold reset_anchor. split_command. Qed.

Lemma configure_environment_counters wind depth :
  stable counters (configure_environment env wind depth).
Proof.
  pose proof get_auth_token_counters.
  unfold configure_environment. split_command.
Qed.

Lemma reset_simulation_counters : stable counters (reset_simulation env).
Proof.
  pose proof get_auth_token_counters.
  unfold reset_simulation. split_command.
Qed.

Lemma get_position_counters token : stable counters (get_position env token).
Proof. unfold get_position. split_command. Qed.

Lemma send_command_counters token c : stable counters (send_command env token c).
Proof. unfold send_command. split_command. Qed.

Lemma collect_sample_counters token sp slat slon st :
  stable counters (collect_sample env token sp slat slon st).
Proof.
  unfold collect_sample, get_position, get_speed, get_heading, get_simulation_state.
  split_command.
Qed.

Lemma collect_sample_forward token sp slat slon st :
  forward (collect_sample env token sp slat slon st).
Proof.
  pose proof (ask_forward env). pose proof now_forward.
  unfold collect_sample, get_position, get_speed, get_heading, get_simulation_state.
  split_command; auto.
Qed.

Lemma sample_tick_counters token sp slat slon ts nxt samples :
  stable counters (sample_tick env token sp slat slon ts nxt samples).
Proof.
  pose proof (collect_sample_counters token sp slat slon ts).
  unfold sample_tick. split_command.
Qed.

(** Every iteration of the loop takes at least the 100 ms it sleeps. *)
Lemma sample_tick_clock token sp slat slon ts nxt samples w :
  clock w + 100 <= clock (snd (sample_tick env token sp slat slon ts nxt samples w)).
Proof.
  unfold sample_tick, bind, now. simpl.
  destruct (nxt <=? clock w).
  - pose proof (collect_sample_forward token sp slat slon ts w) as H.
    destruct (collect_sample env token sp slat slon ts w) as [s w1].
    simpl in *. lia.
  - simpl. lia.
Qed.

End Frames.

(** ** The sampling loop *)

Section Loop.

Variable env : Env.

Lemma sample_loop_counters fuel t token sp slat slon ts md :
  forall nxt samples,
    stable counters (sample_loop env fuel t token sp slat slon ts md nxt samples).
Proof.
  induction fuel as [|fuel IH]; intros nxt samples; simpl.
  - apply stable_ret.
  - apply stable_bind; [ apply now_counters | intros now_ ].
    destruct (now_ - ts <? md); [ | apply stable_ret ].
    apply stable_bind; [ apply sample_tick_counters | intros r ].
    destruct (check_termination t (fst r)); split_command.
Qed.

(** The loop always leaves by itself: with one unit of fuel per 100 ms of
    the remaining duration, and one more, the fuel is never used up. *)
Lemma sample_loop_terminates fuel t token sp slat slon ts md :
  forall nxt samples w,
    md - (clock w - ts) <= 100 * Z.of_nat fuel ->
    snd (fst (sample_loop env (S fuel) t token sp slat slon ts md nxt samples w))
      <> OutOfFuel.
Proof.
  induction fuel as [|fuel IH]; intros nxt samples w Hfuel.
  - simpl. unfold bind, now. simpl.
    destruct (clock w - ts <? md) eqn:Hguard.
    + apply Z.ltb_lt in Hguard. lia.
    + simpl. discriminate.
  - change (sample_loop env (S (S fuel)) t token sp slat slon ts md nxt samples w)
      with (bind now (fun t0 =>
              if t0 - ts <? md then
                bind (sample_tick env token sp slat slon ts nxt samples) (fun r =>
                  match check_termination t (fst r) with
                  | Break entry => bind (log_test entry) (fun _ => ret (fst r, ConditionMet))
                  | Raise => bind (log_test LogCollectionError)
                               (fun _ => ret (fst r, CollectionError))
                  | Continue =>
                      sample_loop env (S fuel) t token sp slat slon ts md (snd r) (fst r)
                  end)
              else ret (samples, TimedOut)) w).
    unfold bind at 1. unfold now at 1.
    destruct (clock w - ts <? md) eqn:Hguard; [ | simpl; discriminate ].
    unfold bind at 1.
    pose proof (sample_tick_clock env token sp slat slon ts nxt samples w) as Hclock.
    destruct (sample_tick env token sp slat slon ts nxt samples w) as [r w1].
    simpl in Hclock.
    destruct (check_termination t (fst r)).
    + apply IH. lia.
    + simpl. discriminate.
    + simpl. discriminate.
Qed.

(** With the fuel [run_test] gives it, the loop started at [test_start]
    never runs out. *)
Lemma sample_loop_fuel_enough t token sp slat slon nxt samples w :
  snd (fst (sample_loop env sample_loop_fuel t token sp slat slon (clock w)
              TEST_TIMEOUT nxt samples w)) <> OutOfFuel.
Proof.
  unfold sample_loop_fuel. apply sample_loop_terminates.
  change (TEST_TIMEOUT / 100) with 6000.
  rewrite Z2Nat.id by lia.
  unfold TEST_TIMEOUT. lia.
Qed.

End Loop.

(** ** One test *)

Lemma last_sample_cons s l : exists x, last_sample (s :: l) = Some x.
Proof.
  revert s. induction l as [|s' l IH]; intros s.
  - exists s. reflexivity.
  - destruct (IH s') as [x Hx]. exists x.
    change (last_sample (s :: s' :: l)) with (last_sample (s' :: l)). exact Hx.
Qed.

Lemma last_sample_app l s : last_sample (l ++ [s]) = Some s.
Proof.
  induction l as [|a l IH]; [ reflexivity | ].
  destruct l as [|b l]; [ reflexivity | ].
  exact IH.
Qed.

(** The summary block exists exactly when there are samples. *)
Lemma make_summary_None l : make_summary l = None <-> l = [].
Proof.
  split.
  - destruct l as [|s l]; [ reflexivity | ].
    destruct (last_sample_cons s l) as [x Hx].
    unfold make_summary. rewrite Hx. discriminate.
  - intros ->. reflexivity.
Qed.

(** The value of [passed] in [run_test]. *)
Lemma passed_has_samples l :
  (Nat.ltb 0 (List.length l)
   && match make_summary l with Some _ => true | None => false end)
  = negb (Nat.eqb (List.length l) 0).
Proof.
  destruct l as [|s l]; [ reflexivity | ].
  destruct (make_summary (s :: l)) eqn:E; [ reflexivity | ].
  apply make_summary_None in E. discriminate.
Qed.

Lemma update_progress_counters n wind depth t st :
  stable counters (update_progress n wind depth t st).
Proof. intros w. reflexivity. Qed.

Lemma save_test_data_counters td : stable counters (save_test_data td).
Proof. intros w. reflexivity. Qed.

#[local] Hint Resolve get_auth_token_counters check_chain_controller_counters
  restart_chain_controller_counters ensure_chain_controller_counters
  stop_chain_counters reset_anchor_counters configure_environment_counters
  reset_simulation_counters get_position_counters send_command_counters
  collect_sample_counters sample_tick_counters sample_loop_counters
  update_progress_counters save_test_data_counters : stable.

Lemma fail_test_spec c0 p :
  hoare (fun w => counters w = c0) (fail_test p) (run_test_post c0).
Proof.
  intros w Hw. destruct c0 as [[c ps] f].
  unfold counters in Hw. injection Hw as Hc Hp Hf.
  unfold run_test_post, scored, fail_test, bind, counters. simpl.
  rewrite Hc, Hp, Hf. reflexivity.
Qed.

Lemma now_hoare (P : World -> Prop) :
  hoare P now (fun t w => P w /\ clock w = t).
Proof. intros w Hw. simpl. auto. Qed.

Lemma hoare_pure {A} (phi : Prop) (P : World -> Prop) (c : M A) (Q : A -> World -> Prop) :
  (phi -> hoare P c Q) -> hoare (fun w => P w /\ phi) c Q.
Proof. intros H w [Hw Hphi]. apply H; assumption. Qed.

(** The loop as [run_test] starts it: it keeps the counters and leaves by
    itself. *)
Lemma sample_loop_hoare env t token sp slat slon ts nxt samples c0 :
  hoare (fun w => counters w = c0 /\ clock w = ts)
    (sample_loop env sample_loop_fuel t token sp slat slon ts TEST_TIMEOUT nxt samples)
    (fun r w => counters w = c0 /\ snd r <> OutOfFuel).
Proof.
  intros w [Hw Hclock]. subst ts. split.
  - rewrite sample_loop_counters. exact Hw.
  - apply sample_loop_fuel_enough.
Qed.

(** Find an entry in a log that computes. *)
Ltac in_log := vm_compute; repeat first [ left; reflexivity | right ].

(** Step over a command that leaves the counters alone. *)
Ltac keep :=
  eapply hoare_bind;
  [ apply stable_hoare; split_command | intros ? ].

Lemma run_test_hoare env n wind depth t c0 :
  hoare (fun w => counters w = c0) (run_test env n wind depth t) (run_test_post c0).
Proof.
  unfold run_test.
  keep. keep. keep.
  destruct (negb (json_truthy _)); [ apply fail_test_spec | ].
  keep. keep.
  destruct (negb _); [ apply fail_test_spec | ].
  keep. keep. keep. keep.
  match goal with |- hoare _ (if ?b then _ else _) _ => destruct b end;
    [ apply fail_test_spec | ].
  keep. keep. keep.
  destruct (negb _); [ apply fail_test_spec | ].
  keep. keep. keep. keep. keep. keep. keep.
  match goal with |- hoare _ (match ?x with _ => _ end) _ => destruct x as [start_pos|] end;
    [ | apply fail_test_spec ].
  keep.
  match goal with |- hoare _ (if ?b then _ else _) _ => destruct b end;
    [ apply fail_test_spec | ].
  keep.
  (* the loop starts at the time just read *)
  replace (match t with autoDrop => TEST_TIMEOUT | autoRetrieve => TEST_TIMEOUT end)
    with TEST_TIMEOUT by (destruct t; reflexivity).
  eapply hoare_bind; [ apply now_hoare | intros test_start ].
  eapply hoare_bind; [ apply sample_loop_hoare | intros [collected exit] ].
  apply hoare_pure. simpl fst. simpl snd. intros Hexit.
  keep. keep. keep. keep.
  rewrite passed_has_samples.
  intros w Hw. destruct c0 as [[c ps] f].
  unfold counters in Hw. injection Hw as Hc Hp Hf.
  destruct collected as [|s l]; simpl;
    unfold scored, counters; simpl; rewrite Hc, Hp, Hf; repeat split; auto.
Qed.

Lemma run_test_spec env n wind depth t w :
  run_test_post (counters w)
    (fst (run_test env n wind depth t w)) (snd (run_test env n wind depth t w)).
Proof. apply (run_test_hoare env n wind depth t (counters w)). reflexivity. Qed.

(** The counters after one test, whatever its course. *)
Lemma run_test_counters env n wind depth t w :
  let r := fst (run_test env n wind depth t w) in
  let w' := snd (run_test env n wind depth t w) in
  tests_completed w' = S (tests_completed w) /\
  tests_passed w' = (tests_passed w + if has_samples r then 1 else 0)%nat /\
  tests_failed w' = (tests_failed w + if has_samples r then 0 else 1)%nat.
Proof.
  intros r w'. pose proof (run_test_spec env n wind depth t w) as H.
  fold r w' in H. unfold run_test_post, scored, counters in H.
  destruct r as [p|exit td]; simpl.
  - injection H as Hc Hp Hf. rewrite Hc, Hp, Hf. lia.
  - destruct H as (_ & _ & _ & _ & H).
    destruct (Nat.eqb (List.length (samples td)) 0); simpl in *;
      injection H as Hc Hp Hf; rewrite Hc, Hp, Hf; lia.
Qed.

(** The loop over the matrix runs every test it is given. *)
Lemma run_matrix_counters env tests :
  forall n w,
    let w' := snd (run_matrix env tests n w) in
    tests_completed w' = (tests_completed w + List.length tests)%nat /\
    (tests_passed w' + tests_failed w'
     = tests_passed w + tests_failed w + List.length tests)%nat.
Proof.
  induction tests as [|[[wind depth] t] rest IH]; intros n w; simpl.
  - lia.
  - unfold bind.
    pose proof (run_test_counters env n wind depth t w) as H. simpl in H.
    destruct (run_test env n wind depth t w) as [r w1]. simpl in H.
    destruct H as (Hc & Hp & Hf).
    simpl. specialize (IH (S n) (set_clock (clock w1 + 2000) w1)).
    simpl in IH. destruct IH as [IHc IHpf].
    rewrite IHc, IHpf, Hc, Hp, Hf.
    destruct (has_samples r); lia.
Qed.

(** ** C1: scoring of a test *)

(** C1 (as the code has it).  Every test adds exactly one to the completed
    counter, whatever its course.  The runner keeps no COMPLETED / TIMEOUT /
    FAILED status: a test adds one to the passed counter exactly when it
    reached the sampling loop and at least one Sample was collected, however
    the loop was left (completion condition, timeout, or error), and adds
    one to the failed counter otherwise. *)
Theorem run_test_scores_by_samples env n wind depth t w :
  let r := fst (run_test env n wind depth t w) in
  let w' := snd (run_test env n wind depth t w) in
  tests_completed w' = S (tests_completed w) /\
  (tests_passed w' = S (tests_passed w) <->
   exists exit td, r = Saved exit td /\ samples td <> []) /\
  (tests_passed w' = tests_passed w \/ tests_passed w' = S (tests_passed w)) /\
  (tests_passed w' + tests_failed w' = S (tests_passed w + tests_failed w))%nat.
Proof.
  intros r w'. destruct (run_test_counters env n wind depth t w) as (Hc & Hp & Hf).
  fold r w' in Hc, Hp, Hf.
  split; [ exact Hc | ].
  assert (Hs : has_samples r = true <-> exists exit td, r = Saved exit td /\ samples td <> []).
  { destruct r as [p|exit td]; simpl.
    - split; [ discriminate | intros (? & ? & ? & _); discriminate ].
    - split.
      + intros H. exists exit, td. split; [ reflexivity | ].
        intros E. rewrite E in H. discriminate.
      + intros (? & ? & E & Hne). injection E as <- <-.
        destruct (samples td); [ contradiction | reflexivity ]. }
  split; [ | split ].
  - rewrite <- Hs. destruct (has_samples r); split; intros; try lia; try discriminate; auto.
  - destruct (has_samples r); [ right | left ]; lia.
  - destruct (has_samples r); lia.
Qed.

(** C1, counterexample.  With the chain jammed at a scope of 3.2 the
    deployment never completes: the loop is left by the timeout, and the
    test is counted as passed. *)
Lemma timed_out_run_counts_as_passed :
  let run := run_test env_jammed 1 8 3 autoDrop (initial_world 0) in
  (exists td, fst run = Saved TimedOut td) /\
  tests_passed (snd run) = 1%nat /\
  tests_failed (snd run) = 0%nat.
Proof.
  cbv zeta. split; [ | vm_compute; auto ].
  eexists. vm_compute. reflexivity.
Qed.

(** ** C10: the metadata of a persisted record *)

(** C10.  In every record [run_test] persists, [test_metadata.completed] is
    [True], also when the loop was left by the timeout, and
    [test_metadata.timeout] is true exactly when no Sample was collected. *)
Theorem persisted_metadata_flags env n wind depth t w exit td :
  fst (run_test env n wind depth t w) = Saved exit td ->
  completed (test_metadata td) = true /\
  (timeout (test_metadata td) = true <-> samples td = []) /\
  sample_count (test_metadata td) = List.length (samples td).
Proof.
  intros Hrun. pose proof (run_test_spec env n wind depth t w) as H.
  rewrite Hrun in H. destruct H as (_ & Hcompleted & Htimeout & Hcount & _).
  split; [ exact Hcompleted | split; [ | exact Hcount ] ].
  rewrite Htimeout. destruct (samples td); simpl; split; intros; auto; discriminate.
Qed.

Lemma persisted_metadata_flags_witness :
  telemetry_lost_run = Saved TimedOut telemetry_lost_data /\
  completed (test_metadata telemetry_lost_data) = true /\
  (timeout (test_metadata telemetry_lost_data) = true <->
   samples telemetry_lost_data = []) /\
  sample_count (test_metadata telemetry_lost_data)
  = List.length (samples telemetry_lost_data).
Proof.
  split.
  - vm_compute. reflexivity.
  - apply (persisted_metadata_flags env_telemetry_lost 1 8 3 autoDrop
             (initial_world 0) TimedOut telemetry_lost_data).
    vm_compute. reflexivity.
Defined.

(** ** C4: the session counters *)

(** C4.  In a session that starts with the counters at zero, after each
    TestCase of the matrix the counters satisfy
    [completed = passed + failed]; [completed] is the number of TestCases
    run so far, which never exceeds the size of the matrix. *)
Theorem session_counters_invariant env w n pre post :
  test_matrix = pre ++ post ->
  counters w = (0, 0, 0)%nat ->
  let w' := snd (run_matrix env pre n w) in
  tests_completed w' = (tests_passed w' + tests_failed w')%nat /\
  tests_completed w' = List.length pre /\
  (tests_completed w' <= total_tests)%nat /\
  total_tests
  = (List.length WIND_SPEEDS * List.length DEPTHS * List.length TEST_TYPES)%nat.
Proof.
  intros Hmatrix Hzero w'.
  destruct (run_matrix_counters env pre n w) as [Hc Hpf]. fold w' in Hc, Hpf.
  unfold counters in Hzero. injection Hzero as Hc0 Hp0 Hf0.
  rewrite Hc0 in Hc. rewrite Hp0, Hf0 in Hpf. simpl in Hc, Hpf.
  assert (Hlen : List.length test_matrix = total_tests) by reflexivity.
  rewrite Hmatrix, length_app in Hlen.
  repeat split; try lia.
Qed.

Lemma session_counters_invariant_witness :
  test_matrix = firstn 3 test_matrix ++ skipn 3 test_matrix /\
  counters (initial_world 0) = (0, 0, 0)%nat /\
  let w' := snd (run_matrix env_nominal (firstn 3 test_matrix) 1 (initial_world 0)) in
  tests_completed w' = (tests_passed w' + tests_failed w')%nat /\
  tests_completed w' = List.length (firstn 3 test_matrix) /\
  (tests_completed w' <= total_tests)%nat /\
  total_tests
  = (List.length WIND_SPEEDS * List.length DEPTHS * List.length TEST_TYPES)%nat.
Proof.
  split; [ reflexivity | split; [ reflexivity | ] ].
  apply (session_counters_invariant env_nominal (initial_world 0) 1
           (firstn 3 test_matrix) (skipn 3 test_matrix)); reflexivity.
Defined.

(** A failed login ends the test at its first return. *)
Lemma run_test_auth_failure env n wind depth t w :
  (forall body, fst (ask env AuthLogin w) <> Ok body) ->
  fst (run_test env n wind depth t w) = Aborted PhaseAuth.
Proof.
  intros Hlogin. unfold run_test, bind at 1 2 3, log_test at 1, update_progress at 1.
  cbv beta iota. unfold get_auth_token at 1. unfold bind at 1.
  match goal with
  | |- context [ask env AuthLogin ?w1] =>
      assert (Hsame : fst (ask env AuthLogin w1) = fst (ask env AuthLogin w))
        by (apply ask_reply_ncalls; reflexivity);
      destruct (ask env AuthLogin w1) as [reply w2]
  end.
  simpl in Hsame.
  destruct reply as [body| |].
  - exfalso. apply (Hlogin body). symmetry. exact Hsame.
  - reflexivity.
  - reflexivity.
Qed.

(** ** C8 and C9: one sample *)

(** What [collect_sample] returns is decided by the replies to the position,
    speed and heading reads; the time stamp and the simulator state only
    fill fields in. *)
Lemma collect_sample_result env token sp slat slon st w :
  exists (t : Z) (sim : option dict),
    fst (collect_sample env token sp slat slon st w) =
    match fst (ask env NavPosition w), fst (ask env NavSpeed w),
          fst (ask env NavHeading w) with
    | Ok pos, Ok v, Ok rad =>
        let deg := (rad * 180 / math_pi)%Q in
        if Q_truthy deg then
          Some {| timestamp := t;
                  elapsed_sec := t - st;
                  position := {| sample_latitude := latitude pos;
                                 sample_longitude := longitude pos;
                                 speed := v;
                                 heading := if Q_truthy deg then mod360 deg else 0%Q |};
                  distance_from_start := ((latitude pos - slat) / (9 # 1000000))%Q;
                  simulation_state := sim |}
        else None
    | _, _, _ => None
    end.
Proof.
  assert (Hspeed : fst (ask env NavSpeed (snd (ask env NavPosition w)))
                   = fst (ask env NavSpeed w))
    by (apply ask_reply_ncalls; rewrite ask_ncalls; reflexivity).
  assert (Hheading : forall w2,
            ncalls w2 NavHeading = ncalls w NavHeading ->
            fst (ask env NavHeading w2) = fst (ask env NavHeading w))
    by (intros w2 H; apply ask_reply_ncalls; exact H).
  remember (fst (ask env NavPosition w)) as p1 eqn:E1.
  remember (fst (ask env NavSpeed w)) as p2 eqn:E2.
  remember (fst (ask env NavHeading w)) as p3 eqn:E3.
  unfold collect_sample, get_position, get_speed, get_heading,
    get_simulation_state, bind.
  pose proof (ask_ncalls env NavPosition w NavHeading) as N1.
  destruct (ask env NavPosition w) as [r1 w1].
  cbn [fst snd] in E1, Hspeed, N1. subst r1.
  assert (Hp1 : forall k : option Position -> M (option Sample),
            (let (a, w') := match p1 with
                            | Ok pos => ret (Some pos)
                            | _ => ret None
                            end w1 in k a w')
            = k (match p1 with Ok pos => Some pos | _ => None end) w1)
    by (intros k; destruct p1; reflexivity).
  rewrite Hp1. clear Hp1.
  pose proof (ask_ncalls env NavSpeed w1 NavHeading) as N2.
  destruct (ask env NavSpeed w1) as [r2 w2].
  cbn [fst snd] in Hspeed, N2. subst r2.
  assert (Hp2 : forall k : option Q -> M (option Sample),
            (let (a, w') := match p2 with
                            | Ok v => ret (Some v)
                            | _ => ret None
                            end w2 in k a w')
            = k (match p2 with Ok v => Some v | _ => None end) w2)
    by (intros k; destruct p2; reflexivity).
  rewrite Hp2. clear Hp2.
  assert (H3 : fst (ask env NavHeading w2) = p3).
  { apply Hheading. rewrite N2, N1. reflexivity. }
  destruct (ask env NavHeading w2) as [r3 w3].
  cbn [fst snd] in H3. subst r3.
  assert (Hp3 : forall k : option Q -> M (option Sample),
            (let (a, w') := match p3 with
                            | Ok rad => ret (Some (rad * 180 / math_pi)%Q)
                            | _ => ret None
                            end w3 in k a w')
            = k (match p3 with Ok rad => Some (rad * 180 / math_pi)%Q | _ => None end) w3)
    by (intros k; destruct p3; reflexivity).
  rewrite Hp3. clear Hp3.
  destruct (ask env SimulationState w3) as [r4 w4].
  assert (Hp4 : forall k : option dict -> M (option Sample),
            (let (a, w') := match r4 with
                            | Ok state => ret (Some state)
                            | _ => ret None
                            end w4 in k a w')
            = k (match r4 with Ok state => Some state | _ => None end) w4)
    by (intros k; destruct r4; reflexivity).
  rewrite Hp4. clear Hp4.
  exists (clock w4),
    (match (match r4 with Ok state => Some state | _ => None end) with
     | Some state => if dict_truthy state then Some state else None
     | None => None
     end).
  destruct p1 as [pos| |]; try reflexivity.
  destruct p2 as [v| |]; try reflexivity.
  destruct p3 as [rad| |]; try reflexivity.
  cbv zeta. destruct (Q_truthy (rad * 180 / math_pi)); reflexivity.
Qed.

(** A heading converts to zero degrees exactly when it is zero radians. *)
Lemma heading_degrees_truthy rad :
  Q_truthy (rad * 180 / math_pi) = negb (Qeq_bool rad 0).
Proof.
  unfold Q_truthy. f_equal.
  destruct (Qeq_bool rad 0) eqn:E.
  - apply Qeq_bool_iff in E. apply Qeq_bool_iff. rewrite E. reflexivity.
  - destruct (Qeq_bool (rad * 180 / math_pi) 0) eqn:E'; [ | reflexivity ].
    apply Qeq_bool_iff in E'. apply Qeq_bool_neq in E. exfalso. apply E.
    assert (Hpi : ~ (math_pi == 0)%Q) by (unfold math_pi; intros H; discriminate H).
    assert (H : (rad == rad * 180 / math_pi * (math_pi / 180))%Q)
      by (field; exact Hpi).
    rewrite H, E'. reflexivity.
Qed.

(** C8.  On a tick where the position, speed and heading reads all succeed,
    [collect_sample] returns no Sample when the heading read is exactly 0
    radians: the heading is tested for truth.  The speed is tested against
    [None] only, so with any other heading a Sample is returned whatever the
    speed, zero included. *)
Theorem zero_heading_drops_the_sample env token sp slat slon st w pos v rad :
  fst (ask env NavPosition w) = Ok pos ->
  fst (ask env NavSpeed w) = Ok v ->
  fst (ask env NavHeading w) = Ok rad ->
  ((rad == 0)%Q -> fst (collect_sample env token sp slat slon st w) = None) /\
  (~ (rad == 0)%Q ->
   exists s, fst (collect_sample env token sp slat slon st w) = Some s /\
             speed (position s) = v).
Proof.
  intros Hpos Hspeed Hheading.
  destruct (collect_sample_result env token sp slat slon st w) as (t & sim & ->).
  rewrite Hpos, Hspeed, Hheading. cbv zeta.
  rewrite heading_degrees_truthy.
  split; intros Hrad.
  - apply Qeq_bool_iff in Hrad. rewrite Hrad. reflexivity.
  - destruct (Qeq_bool rad 0) eqn:E.
    + apply Qeq_bool_iff in E. contradiction.
    + simpl. eexists. split; reflexivity.
Qed.

Lemma zero_heading_drops_the_sample_witness :
  let w := initial_world 0 in
  let pos := {| latitude := 436 # 10; longitude := - (794 # 10) |} in
  fst (ask env_heading_north NavPosition w) = Ok pos /\
  fst (ask env_heading_north NavSpeed w) = Ok 0%Q /\
  fst (ask env_heading_north NavHeading w) = Ok 0%Q /\
  fst (collect_sample env_heading_north (JStr "jwt") pos (436 # 10) (- (794 # 10)) 0 w)
  = None.
Proof.
  cbv zeta.
  split; [ reflexivity | split; [ reflexivity | split; [ reflexivity | ] ] ].
  apply (zero_heading_drops_the_sample env_heading_north (JStr "jwt")
           {| latitude := 436 # 10; longitude := - (794 # 10) |}
           (436 # 10) (- (794 # 10)) 0 (initial_world 0)
           {| latitude := 436 # 10; longitude := - (794 # 10) |} 0%Q 0%Q);
    reflexivity.
Defined.

(** C9.  In every Sample, [distance_from_start] is the latitude of the
    sample minus the start latitude, divided by 0.000009.  It does not look
    at the longitude: a sample at the start latitude has distance 0 wherever
    it lies east or west (where [calculate_distance] of common.py is
    positive), and a sample south of the start has a negative distance. *)
Theorem distance_from_start_is_signed_north_offset env token sp slat slon st w s :
  fst (collect_sample env token sp slat slon st w) = Some s ->
  let lat := sample_latitude (position s) in
  let lon := sample_longitude (position s) in
  (distance_from_start s == (lat - slat) / (9 # 1000000))%Q /\
  ((lat == slat)%Q -> (distance_from_start s == 0)%Q) /\
  ((lat == slat)%Q -> ~ (lon == slon)%Q ->
   (0 < Common.calculate_distance_squared slat slon lat lon)%Q) /\
  ((lat < slat)%Q -> (distance_from_start s < 0)%Q).
Proof.
  intros Hs.
  destruct (collect_sample_result env token sp slat slon st w) as (t & sim & E).
  rewrite Hs in E.
  destruct (fst (ask env NavPosition w)) as [pos| |]; try discriminate.
  destruct (fst (ask env NavSpeed w)) as [v| |]; try discriminate.
  destruct (fst (ask env NavHeading w)) as [rad| |]; try discriminate.
  cbv zeta in E. destruct (Q_truthy (rad * 180 / math_pi)); try discriminate.
  injection E as ->. simpl.
  split; [ reflexivity | ].
  split; [ | split ].
  - intros H. rewrite H. field.
  - intros H Hlon. unfold Common.calculate_distance_squared.
    unfold Common.METERS_TO_LAT, Common.METERS_TO_LON.
    rewrite H.
    assert (Hd : ~ ((longitude pos - slon) / (125 # 10000000) == 0)%Q).
    { intros H0. apply Hlon.
      assert (Hx : (longitude pos - slon
                    == (longitude pos - slon) / (125 # 10000000) * (125 # 10000000))%Q)
        by field.
      rewrite H0 in Hx. lra. }
    set (d := ((longitude pos - slon) / (125 # 10000000))%Q) in *.
    assert (Hz : ((slat - slat) / (9 # 1000000) == 0)%Q) by field.
    rewrite Hz.
    destruct (Qlt_le_dec 0 d) as [Hpos|Hneg].
    + nra.
    + assert (d < 0)%Q by (apply Qle_lteq in Hneg; destruct Hneg as [|Heq];
                           [ assumption | exfalso; apply Hd; exact Heq ]).
      nra.
  - intros H.
    assert (Hx : ((latitude pos - slat) / (9 # 1000000)
                  == (latitude pos - slat) * (1000000 # 9))%Q) by field.
    rewrite Hx. nra.
Qed.

Lemma distance_from_start_is_signed_north_offset_witness :
  let start := {| latitude := 436 # 10; longitude := - (794 # 10) |} in
  fst (collect_sample env_drifted (JStr "jwt") start (436 # 10) (- (794 # 10)) 0
         (initial_world 0)) = Some drifted_sample /\
  (distance_from_start drifted_sample
   == (sample_latitude (position drifted_sample) - (436 # 10)) / (9 # 1000000))%Q /\
  (distance_from_start drifted_sample < 0)%Q.
Proof.
  cbv zeta.
  assert (Hrun : fst (collect_sample env_drifted (JStr "jwt")
                        {| latitude := 436 # 10; longitude := - (794 # 10) |}
                        (436 # 10) (- (794 # 10)) 0 (initial_world 0))
                 = Some drifted_sample) by (vm_compute; reflexivity).
  split; [ exact Hrun | ].
  pose proof (distance_from_start_is_signed_north_offset env_drifted (JStr "jwt")
                {| latitude := 436 # 10; longitude := - (794 # 10) |}
                (436 # 10) (- (794 # 10)) 0 (initial_world 0) drifted_sample Hrun)
    as (H1 & _ & _ & H4).
  split; [ exact H1 | ].
  apply H4. reflexivity.
Defined.

(** ** C3: how the sampling loop is left *)

Lemma grows_ret {A} (f : World -> nat) (a : A) : grows f (ret a).
Proof. intros w. simpl. lia. Qed.

Lemma grows_bind {A B} (f : World -> nat) (c : M A) (k : A -> M B) :
  grows f c -> (forall a, grows f (k a)) -> grows f (bind c k).
Proof.
  intros Hc Hk w. unfold bind.
  specialize (Hc w). destruct (c w) as [a w1]. simpl in Hc.
  specialize (Hk a w1). lia.
Qed.

Lemma ask_grows env e e' : grows (fun w => ncalls w e') (ask env e).
Proof.
  intros w. rewrite ask_ncalls.
  destruct (Endpoint_eqb e e') eqn:E; [ | lia ].
  destruct e, e'; try discriminate E; try lia.
  simpl in E. apply String.eqb_eq in E. subst. lia.
Qed.

Lemma collect_sample_grows env token sp slat slon st e :
  grows (fun w => ncalls w e) (collect_sample env token sp slat slon st).
Proof.
  pose proof (fun e0 => ask_grows env e0 e) as Hask.
  assert (Hnow : grows (fun w => ncalls w e) now) by (intros w; simpl; lia).
  unfold collect_sample, get_position, get_speed, get_heading, get_simulation_state.
  repeat first
    [ apply grows_ret
    | apply grows_bind; [ | intros ? ]
    | solve [ auto ]
    | match goal with
      | |- grows _ (match ?x with _ => _ end) => destruct x
      end ].
Qed.

Lemma sample_tick_grows env token sp slat slon ts nxt samples e w :
  (ncalls w e
   <= ncalls (snd (sample_tick env token sp slat slon ts nxt samples w)) e)%nat.
Proof.
  unfold sample_tick, bind, now. simpl.
  destruct (nxt <=? clock w).
  - pose proof (collect_sample_grows env token sp slat slon ts e w) as H.
    destruct (collect_sample env token sp slat slon ts w) as [s w1].
    simpl in *. exact H.
  - simpl. lia.
Qed.

(** A tick keeps the samples, or appends the one it collected. *)
Lemma sample_tick_samples env token sp slat slon ts nxt samples w :
  let r := fst (sample_tick env token sp slat slon ts nxt samples w) in
  fst r = samples \/
  exists s, fst (collect_sample env token sp slat slon ts w) = Some s /\
            fst r = samples ++ [s].
Proof.
  unfold sample_tick, bind, now. simpl.
  destruct (nxt <=? clock w).
  - destruct (collect_sample env token sp slat slon ts w) as [[s|] w1]; simpl.
    + right. exists s. auto.
    + left. reflexivity.
  - simpl. left. reflexivity.
Qed.

(** One iteration of the loop. *)
Lemma sample_loop_S env fuel t token sp slat slon ts md nxt samples w :
  sample_loop env (S fuel) t token sp slat slon ts md nxt samples w =
  if clock w - ts <? md then
    bind (sample_tick env token sp slat slon ts nxt samples)
      (fun r =>
         match check_termination t (fst r) with
         | Break entry => bind (log_test entry) (fun _ => ret (fst r, ConditionMet))
         | Raise => bind (log_test LogCollectionError)
                      (fun _ => ret (fst r, CollectionError))
         | Continue =>
             sample_loop env fuel t token sp slat slon ts md (snd r) (fst r)
         end) w
  else (samples, TimedOut, w).
Proof.
  cbn [sample_loop]. unfold bind at 1. unfold now at 1.
  destruct (clock w - ts <? md); reflexivity.
Qed.

(** The termination check looks at the latest sample only. *)
Lemma check_termination_last t samples :
  check_termination t samples =
  match last_sample samples with
  | Some latest => check_termination t [latest]
  | None => Continue
  end.
Proof.
  unfold check_termination. destruct (last_sample samples); reflexivity.
Qed.

Lemma last_sample_In samples s : last_sample samples = Some s -> In s samples.
Proof.
  induction samples as [|a l IH]; [ discriminate | ].
  destruct l as [|b l].
  - simpl. intros E. injection E as ->. auto.
  - intros E. right. apply IH. exact E.
Qed.

(** The loop is left by the completion condition at the first sample on
    which the check fires, and at no other: in what it returns, no sample
    but the last fires the check, and the last does exactly when the loop
    was left by the condition. *)
Lemma sample_loop_stops_at_first_completion env fuel t token sp slat slon ts md :
  forall nxt samples w,
    Forall (fun s => completes t s = false) samples ->
    let res := fst (sample_loop env fuel t token sp slat slon ts md nxt samples w) in
    match snd res with
    | ConditionMet =>
        exists front s,
          fst res = front ++ [s] /\
          Forall (fun x => completes t x = false) front /\
          completes t s = true
    | _ => Forall (fun x => completes t x = false) (fst res)
    end.
Proof.
  induction fuel as [|fuel IH]; intros nxt samples w Hquiet.
  - simpl. exact Hquiet.
  - rewrite sample_loop_S.
    destruct (clock w - ts <? md); [ | simpl; exact Hquiet ].
    unfold bind at 1.
    pose proof (sample_tick_samples env token sp slat slon ts nxt samples w) as Htick.
    destruct (sample_tick env token sp slat slon ts nxt samples w) as [r w1].
    simpl in Htick.
    destruct Htick as [Hsame | (s & _ & Happ)].
    + rewrite Hsame.
      destruct (check_termination t samples) eqn:Hcheck.
      * apply IH. exact Hquiet.
      * exfalso. rewrite check_termination_last in Hcheck.
        destruct (last_sample samples) as [latest|] eqn:Hlast; [ | discriminate ].
        apply last_sample_In in Hlast.
        rewrite Forall_forall in Hquiet. specialize (Hquiet latest Hlast).
        unfold completes in Hquiet. rewrite Hcheck in Hquiet. discriminate.
      * simpl. exact Hquiet.
    + rewrite Happ, check_termination_last, last_sample_app.
      destruct (check_termination t [s]) eqn:Hcheck.
      * apply IH. apply Forall_app. split; [ exact Hquiet | ].
        constructor; [ | constructor ]. unfold completes. rewrite Hcheck. reflexivity.
      * simpl. exists samples, s. split; [ reflexivity | ].
        split; [ exact Hquiet | ]. unfold completes. rewrite Hcheck. reflexivity.
      * simpl. apply Forall_app. split; [ exact Hquiet | ].
        constructor; [ | constructor ]. unfold completes. rewrite Hcheck. reflexivity.
Qed.

(** On a DEPLOY run the check fires on a sample exactly when its scope
    ratio, a number that a double can hold, is at least 5.0 (a sample
    without the reading has scope 0 and does not fire). *)
Lemma completes_autoDrop s :
  completes autoDrop s = true <->
  exists v, py_number (dict_get "scopeRatio" (sample_sim_state s) (JNum 0)) = Some v /\
            (5 <= v)%Q /\ float_overflow v = false.
Proof.
  unfold completes, check_termination. simpl.
  destruct (py_number (dict_get "scopeRatio" (sample_sim_state s) (JNum 0)))
    as [v|].
  - destruct (Qle_bool 5 v) eqn:E.
    + apply Qle_bool_iff in E. destruct (float_overflow v) eqn:O.
      * split; [ discriminate | ].
        intros (v' & Hv & _ & Hno). injection Hv as <-. congruence.
      * split; [ intros _; exists v; auto | reflexivity ].
    + split; [ discriminate | ].
      intros (v' & Hv & Hle & _). injection Hv as <-.
      apply Qle_bool_iff in Hle. rewrite Hle in E. discriminate.
  - split; [ discriminate | intros (v & Hv & _); discriminate ].
Qed.

(** On a RETRIEVE run the check fires on a sample exactly when its rode
    reading, taken as 0 when the sample has none, is at most 0.1 and within
    the range of a double. *)
Lemma completes_autoRetrieve s :
  completes autoRetrieve s = true <->
  exists v, py_number (dict_get "rodeDeployed" (sample_sim_state s) (JNum 0)) = Some v /\
            (v <= 1 # 10)%Q /\ float_overflow v = false.
Proof.
  unfold completes, check_termination. simpl.
  destruct (py_number (dict_get "rodeDeployed" (sample_sim_state s) (JNum 0)))
    as [v|].
  - destruct (Qle_bool v (1 # 10)) eqn:E.
    + apply Qle_bool_iff in E. destruct (float_overflow v) eqn:O.
      * split; [ discriminate | ].
        intros (v' & Hv & _ & Hno). injection Hv as <-. congruence.
      * split; [ intros _; exists v; auto | reflexivity ].
    + split; [ discriminate | ].
      intros (v' & Hv & Hle & _). injection Hv as <-.
      apply Qle_bool_iff in Hle. rewrite Hle in E. discriminate.
  - split; [ discriminate | intros (v & Hv & _); discriminate ].
Qed.

(** C3, the failing run.  On a RETRIEVE run whose first Sample carries no
    simulator state (the read of the state got no answer), the check takes
    the missing rode as 0: sampling is left by the completion condition at
    that very Sample and the log says the rode is retrieved, although no
    rode reading was seen and the simulator reports 50 m from then on.  The
    same Sample does not end a DEPLOY run. *)
Theorem retrieve_completes_without_rode_reading :
  let run := run_test env_state_missing 1 8 3 autoRetrieve (initial_world 0) in
  (exists td s,
     fst run = Saved ConditionMet td /\
     samples td = [s] /\
     simulation_state s = None /\
     completes autoRetrieve s = true /\
     completes autoDrop s = false) /\
  In (LogRodeRetrieved (JNum 0)) (test_log (snd run)) /\
  respond env_state_missing SimulationState 1
  = Ok [("scopeRatio"%string, JNum 10); ("rodeDeployed"%string, JNum 50)].
Proof.
  cbv zeta. split; [ | split; [ | reflexivity ] ].
  - eexists. eexists. split; [ vm_compute; reflexivity | ].
    split; [ reflexivity | ]. split; [ reflexivity | ].
    split; reflexivity.
  - in_log.
Qed.

(** ** C5: the telemetry client *)

(** Given a token, [get_signalk_value] is one request, or nothing at all
    when the token is falsy. *)
Lemma get_signalk_value_with_token env path tok w :
  tok <> JNull ->
  Common.get_signalk_value env path tok w =
  if json_truthy tok
  then (match fst (ask env (SignalKPath path) w) with
        | Ok value => value
        | _ => JNull
        end, snd (ask env (SignalKPath path) w))
  else (JNull, w).
Proof.
  intros Hnull. unfold Common.get_signalk_value, bind.
  replace (match tok with JNull => Common.get_auth_token env | _ => ret tok end w)
    with (tok, w) by (destruct tok; try reflexivity; contradiction).
  destruct (json_truthy tok); [ | reflexivity ]. cbn [negb].
  destruct (ask env (SignalKPath path) w) as [[value| |] w1]; reflexivity.
Qed.

(** Given no token, it logs in first, and goes on to the request only with
    a token from the login. *)
Lemma get_signalk_value_without_token env path w :
  let tok := token_in_hand env JNull w in
  let w1 := snd (Common.get_auth_token env w) in
  Common.get_signalk_value env path JNull w =
  if json_truthy tok
  then (match fst (ask env (SignalKPath path) w) with
        | Ok value => value
        | _ => JNull
        end, snd (ask env (SignalKPath path) w1))
  else (JNull, w1).
Proof.
  cbv zeta. unfold Common.get_signalk_value, token_in_hand, bind.
  assert (Hsame : fst (ask env (SignalKPath path) (snd (Common.get_auth_token env w)))
                  = fst (ask env (SignalKPath path) w)).
  { apply ask_reply_ncalls. unfold Common.get_auth_token, bind.
    pose proof (ask_ncalls env AuthLogin w (SignalKPath path)) as H.
    destruct (ask env AuthLogin w) as [[body| |] w1]; exact H. }
  unfold Common.get_auth_token, bind in *.
  destruct (ask env AuthLogin w) as [[body| |] w1]; cbn [fst snd ret] in *;
    try reflexivity.
  destruct (json_truthy (dict_get "token" body JNull)); [ | reflexivity ].
  cbn [negb]. rewrite <- Hsame.
  destruct (ask env (SignalKPath path) w1) as [[value| |] w2]; reflexivity.
Qed.

(** C5 (as the code has it).  [get_signalk_value] logs in at most once, and
    only when it was given no token; the login comes first.  It then issues
    the request exactly once when it has a token in hand, and not at all
    when it has none (the login request failed, or its reply held no
    token).  The result is the body of the reply when the request succeeds,
    and [None] in every other case: an HTTP error status, an authorization
    failure included, or no response.  Nothing is retried: there is never a
    second login or a second request.  The readers of the runner work the
    same way on the token [run_test] passes them: one request, no login,
    [None] on every failure. *)
Theorem request_failure_is_final env path token w :
  let r := fst (Common.get_signalk_value env path token w) in
  let w' := snd (Common.get_signalk_value env path token w) in
  let tok := token_in_hand env token w in
  let login := match token with JNull => [(AuthLogin, clock w)] | _ => [] end in
  (exists at_request,
     clock w <= at_request /\
     calls w' = calls w ++ login
                ++ if json_truthy tok then [(SignalKPath path, at_request)] else []) /\
  ncalls w' AuthLogin = (ncalls w AuthLogin + List.length login)%nat /\
  ncalls w' (SignalKPath path)
  = (ncalls w (SignalKPath path) + if json_truthy tok then 1 else 0)%nat /\
  r = (if json_truthy tok
       then match fst (ask env (SignalKPath path) w) with
            | Ok value => value
            | _ => JNull
            end
       else JNull) /\
  (fst (get_position env token w)
   = match fst (ask env NavPosition w) with Ok pos => Some pos | _ => None end /\
   calls (snd (get_position env token w)) = calls w ++ [(NavPosition, clock w)]) /\
  (fst (get_speed env token w)
   = match fst (ask env NavSpeed w) with Ok v => Some v | _ => None end /\
   calls (snd (get_speed env token w)) = calls w ++ [(NavSpeed, clock w)]) /\
  (fst (get_heading env token w)
   = match fst (ask env NavHeading w) with
     | Ok rad => Some (rad * 180 / math_pi)%Q
     | _ => None
     end /\
   calls (snd (get_heading env token w)) = calls w ++ [(NavHeading, clock w)]).
Proof.
  intros r w' tok login.
  assert (Hclient :
    (exists at_request,
       clock w <= at_request /\
       calls w' = calls w ++ login
                  ++ if json_truthy tok then [(SignalKPath path, at_request)] else []) /\
    ncalls w' AuthLogin = (ncalls w AuthLogin + List.length login)%nat /\
    ncalls w' (SignalKPath path)
    = (ncalls w (SignalKPath path) + if json_truthy tok then 1 else 0)%nat /\
    r = (if json_truthy tok
         then match fst (ask env (SignalKPath path) w) with
              | Ok value => value
              | _ => JNull
              end
         else JNull)).
  { subst r w' tok login.
    assert (Hcase : token = JNull \/ token <> JNull)
      by (destruct token; auto; right; discriminate).
    destruct Hcase as [-> | Hnull].
    - rewrite get_signalk_value_without_token. cbv zeta.
      assert (Hlogin : calls (snd (Common.get_auth_token env w))
                       = calls w ++ [(AuthLogin, clock w)]
                       /\ clock w <= clock (snd (Common.get_auth_token env w))
                       /\ ncalls (snd (Common.get_auth_token env w)) AuthLogin
                          = S (ncalls w AuthLogin)
                       /\ ncalls (snd (Common.get_auth_token env w)) (SignalKPath path)
                          = ncalls w (SignalKPath path)).
      { unfold Common.get_auth_token, bind.
        pose proof (ask_calls env AuthLogin w) as Hc.
        pose proof (ask_forward env AuthLogin w) as Hf.
        pose proof (ask_ncalls env AuthLogin w AuthLogin) as Hn.
        pose proof (ask_ncalls env AuthLogin w (SignalKPath path)) as Hp.
        destruct (ask env AuthLogin w) as [[body| |] w1]; auto. }
      destruct Hlogin as (Hc & Hf & Hn & Hp).
      destruct (json_truthy (token_in_hand env JNull w)); cbn [fst snd].
      + rewrite ask_calls, !ask_ncalls, Endpoint_eqb_refl, Hc, Hn, Hp.
        cbn [Endpoint_eqb List.length].
        split; [ eexists; split; [ exact Hf | rewrite <- app_assoc; reflexivity ] | ].
        repeat split; lia.
      + rewrite Hc, Hn, Hp. cbn [List.length].
        split; [ exists (clock w); split; [ lia | rewrite app_nil_r; reflexivity ] | ].
        repeat split; lia.
    - rewrite get_signalk_value_with_token by exact Hnull.
      replace (token_in_hand env token w) with token
        by (destruct token; try reflexivity; contradiction).
      replace (match token with JNull => [(AuthLogin, clock w)] | _ => [] end)
        with (@nil (Endpoint * Z))
        by (destruct token; try reflexivity; contradiction).
      destruct (json_truthy token); cbn [fst snd List.length app].
      + rewrite ask_calls, !ask_ncalls, Endpoint_eqb_refl.
        cbn [Endpoint_eqb].
        split; [ exists (clock w); split; [ lia | reflexivity ] | ].
        repeat split; lia.
      + split; [ exists (clock w); split; [ lia | rewrite app_nil_r; reflexivity ] | ].
        repeat split; lia. }
  destruct Hclient as (H1 & H2 & H3 & H4).
  split; [ exact H1 | split; [ exact H2 | split; [ exact H3 | split; [ exact H4 | ] ] ] ].
  unfold get_position, get_speed, get_heading, bind.
  pose proof (ask_calls env NavPosition w) as Hp.
  pose proof (ask_calls env NavSpeed w) as Hs.
  pose proof (ask_calls env NavHeading w) as Hh.
  destruct (ask env NavPosition w) as [[pos| |] w1];
    destruct (ask env NavSpeed w) as [[v| |] w2];
    destruct (ask env NavHeading w) as [[rad| |] w3]; auto.
Qed.

(** C5, counterexample.  The first request is refused with 401 although the
    login had just succeeded, and a second request would be answered.  The
    client returns [None] after one login and one request: it does not log
    in again and does not retry. *)
Lemma unauthorized_request_is_not_retried :
  let path := "navigation/position/value"%string in
  let run := Common.get_signalk_value env_unauthorized path JNull (initial_world 0) in
  respond env_unauthorized (SignalKPath path) 0 = HttpError 401 /\
  respond env_unauthorized (SignalKPath path) 1 = Ok (JNum 1) /\
  fst run = JNull /\
  ncalls (snd run) AuthLogin = 1%nat /\
  ncalls (snd run) (SignalKPath path) = 1%nat.
Proof.
  cbv zeta. repeat split; vm_compute; reflexivity.
Qed.

(** ** C6: restart and reconnection of the chain controller *)

(** Every health check logs in exactly once. *)
Lemma check_chain_controller_logins env w :
  ncalls (snd (check_chain_controller env w)) AuthLogin = S (ncalls w AuthLogin).
Proof.
  unfold check_chain_controller, get_auth_token, bind.
  pose proof (ask_ncalls env AuthLogin w AuthLogin) as Hn. simpl in Hn.
  destruct (ask env AuthLogin w) as [[body| |] w1]; simpl in *; try exact Hn.
  destruct (negb (json_truthy (dict_get "token" body JNull))); simpl;
    [ exact Hn | ].
  pose proof (ask_ncalls env RodeDeployed w1 AuthLogin) as Hr. simpl in Hr.
  destruct (ask env RodeDeployed w1) as [[data| |] w2]; simpl in *;
    try (rewrite Hr; exact Hn).
  destruct (dict_get "$source" data (JStr "")); simpl; try (rewrite Hr; exact Hn).
  destruct (String.prefix "ws." s); simpl; rewrite Hr; exact Hn.
Qed.

(** A health check never calls the restart endpoint. *)
Lemma check_chain_controller_no_restart env w :
  ncalls (snd (check_chain_controller env w)) DeviceRestart = ncalls w DeviceRestart.
Proof.
  unfold check_chain_controller, get_auth_token, bind.
  pose proof (ask_ncalls env AuthLogin w DeviceRestart) as Hn. simpl in Hn.
  destruct (ask env AuthLogin w) as [[body| |] w1]; simpl in *; try exact Hn.
  destruct (negb (json_truthy (dict_get "token" body JNull))); simpl;
    [ exact Hn | ].
  pose proof (ask_ncalls env RodeDeployed w1 DeviceRestart) as Hr. simpl in Hr.
  destruct (ask env RodeDeployed w1) as [[data| |] w2]; simpl in *;
    try (rewrite Hr; exact Hn).
  destruct (dict_get "$source" data (JStr "")); simpl; try (rewrite Hr; exact Hn).
  destruct (String.prefix "ws." s); simpl; rewrite Hr; exact Hn.
Qed.

Lemma check_chain_controller_forward env : forward (check_chain_controller env).
Proof.
  pose proof (ask_forward env). pose proof log_test_forward.
  unfold check_chain_controller, get_auth_token. split_command; auto.
Qed.

Lemma after_failed_polls_logins env k :
  forall w, ncalls (after_failed_polls env k w) AuthLogin = (ncalls w AuthLogin + k)%nat.
Proof.
  induction k as [|k IH]; intros w; simpl.
  - lia.
  - rewrite IH. simpl. rewrite check_chain_controller_logins. lia.
Qed.

Lemma after_failed_polls_no_restart env k :
  forall w, ncalls (after_failed_polls env k w) DeviceRestart = ncalls w DeviceRestart.
Proof.
  induction k as [|k IH]; intros w; simpl.
  - reflexivity.
  - rewrite IH. simpl. apply check_chain_controller_no_restart.
Qed.

Lemma after_failed_polls_clock env k :
  forall w, clock w + 3000 * Z.of_nat k <= clock (after_failed_polls env k w).
Proof.
  induction k as [|k IH]; intros w.
  - simpl. lia.
  - cbn [after_failed_polls].
    specialize (IH (snd (sleep 3000 (snd (check_chain_controller env w))))).
    pose proof (check_chain_controller_forward env w) as Hf.
    change (clock (snd (sleep 3000 (snd (check_chain_controller env w)))))
      with (clock (snd (check_chain_controller env w)) + 3000) in IH.
    rewrite Nat2Z.inj_succ. lia.
Qed.

(** One round of the polling loop. *)
Lemma reconnect_S env n w :
  reconnect env (S n) w =
  if fst (fst (check_chain_controller env w))
  then (true, snd (log_test (LogReconnected (snd (fst (check_chain_controller env w))))
                     (snd (check_chain_controller env w))))
  else reconnect env n (snd (sleep 3000 (snd (check_chain_controller env w)))).
Proof.
  cbn [reconnect]. unfold bind at 1.
  destruct (check_chain_controller env w) as [[ok msg] w1]. cbn [fst snd].
  destruct ok; reflexivity.
Qed.

Lemma find_seq_shifted (f g : nat -> bool) n :
  (forall k, f (S k) = g k) ->
  forall a, find f (seq (S a) n) = option_map S (find g (seq a n)).
Proof.
  intros Hfg. induction n as [|n IH]; intros a; simpl.
  - reflexivity.
  - rewrite Hfg. destruct (g a); [ reflexivity | apply IH ].
Qed.

(** The polling loop stops at the first poll that succeeds, and gives up
    after [n] failed polls. *)
Lemma reconnect_spec env n :
  forall w,
    match find (fun k => poll_ok env k w) (seq 0 n) with
    | Some k =>
        fst (reconnect env n w) = true /\
        ncalls (snd (reconnect env n w)) AuthLogin = (ncalls w AuthLogin + S k)%nat /\
        ncalls (snd (reconnect env n w)) DeviceRestart = ncalls w DeviceRestart
    | None =>
        fst (reconnect env n w) = false /\
        snd (reconnect env n w)
        = snd (log_test LogNoReconnect (after_failed_polls env n w))
    end.
Proof.
  induction n as [|n IH]; intros w.
  - simpl. auto.
  - rewrite reconnect_S. cbn [seq find].
    change (poll_ok env 0 w) with (fst (fst (check_chain_controller env w))).
    pose proof (check_chain_controller_logins env w) as Hlogin.
    pose proof (check_chain_controller_no_restart env w) as Hrestart.
    destruct (fst (fst (check_chain_controller env w))) eqn:Hok.
    + cbn [fst snd log_test]. 
      change (ncalls (set_test_log ?l ?x)) with (ncalls x).
      rewrite Hlogin, Hrestart. repeat split; lia.
    + set (w2 := snd (sleep 3000 (snd (check_chain_controller env w)))).
      specialize (IH w2).
      assert (Hshift : forall k, poll_ok env (S k) w = poll_ok env k w2) by reflexivity.
      rewrite (find_seq_shifted _ _ n Hshift).
      assert (Hl2 : ncalls w2 AuthLogin = S (ncalls w AuthLogin)) by exact Hlogin.
      assert (Hr2 : ncalls w2 DeviceRestart = ncalls w DeviceRestart) by exact Hrestart.
      change (after_failed_polls env (S n) w) with (after_failed_polls env n w2).
      destruct (find (fun k => poll_ok env k w2) (seq 0 n)) as [k|]; cbn [option_map].
      * destruct IH as (Hr & Hl & Hd). rewrite Hr, Hl, Hd, Hl2, Hr2.
        repeat split; lia.
      * exact IH.
Qed.

(** The restart request decides between the polling loop and an immediate
    failure. *)
Lemma restart_chain_controller_unfold env w :
  restart_chain_controller env w =
  if restart_accepted env w
  then reconnect env 5 (settled env w)
  else (false, snd (log_test LogRestartFailed
                      (snd (ask env DeviceRestart (snd (log_test LogRestarting w)))))).
Proof.
  unfold restart_accepted, settled, restart_chain_controller.
  unfold bind at 1 2. cbn [log_test fst snd].
  rewrite (ask_reply_ncalls env DeviceRestart w
             (set_test_log (test_log w ++ [LogRestarting]) w)) by reflexivity.
  destruct (ask env DeviceRestart (set_test_log (test_log w ++ [LogRestarting]) w))
    as [[body|code|] w1]; reflexivity.
Qed.

Lemma issued_app e h1 h2 : issued e (h1 ++ h2) = issued e h1 ++ issued e h2.
Proof. unfold issued. rewrite filter_app, map_app. reflexivity. Qed.

Lemma issued_other e h :
  Forall (fun c => Endpoint_eqb e (fst c) = false) h -> issued e h = [].
Proof.
  unfold issued. induction h as [|c h IH]; intros H; [ reflexivity | ].
  inversion H as [|c' h' Hc Hh]; subst. simpl. rewrite Hc. apply IH. exact Hh.
Qed.

(** A health check is a login followed by at most one read of the rode. *)
Lemma check_chain_controller_calls env w :
  exists rode,
    calls (snd (check_chain_controller env w))
    = calls w ++ (AuthLogin, clock w) :: rode /\
    Forall (fun c => fst c = RodeDeployed /\ clock w <= snd c) rode.
Proof.
  unfold check_chain_controller, get_auth_token, bind.
  pose proof (ask_calls env AuthLogin w) as Hc.
  pose proof (ask_forward env AuthLogin w) as Hf.
  destruct (ask env AuthLogin w) as [[body| |] w1]; cbn [fst snd ret log_test] in *;
    try (exists []; split; [ exact Hc | constructor ]).
  destruct (negb (json_truthy (dict_get "token" body JNull))); cbn [fst snd ret].
  - exists []. split; [ exact Hc | constructor ].
  - pose proof (ask_calls env RodeDeployed w1) as Hr.
    exists [(RodeDeployed, clock w1)]. split.
    + rewrite Hc, <- app_assoc in Hr.
      destruct (ask env RodeDeployed w1) as [[data| |] w2]; cbn [fst snd ret] in *;
        try exact Hr.
      destruct (dict_get "$source" data (JStr "")); cbn [fst snd ret]; try exact Hr.
      destruct (String.prefix "ws." s); exact Hr.
    + constructor; [ split; [ reflexivity | exact Hf ] | constructor ].
Qed.

(** The calls of the polling loop: only logins and reads of the rode, the
    first login at once, each later login at least 3 s after the one before,
    one login per poll. *)
Lemma reconnect_calls env n :
  forall w,
  exists polls,
    calls (snd (reconnect env n w)) = calls w ++ polls /\
    Forall (fun c => (fst c = AuthLogin \/ fst c = RodeDeployed) /\ clock w <= snd c)
      polls /\
    Sorted (fun a b => a + 3000 <= b) (issued AuthLogin polls) /\
    hd_error (issued AuthLogin polls)
    = match n with O => None | S _ => Some (clock w) end /\
    match find (fun k => poll_ok env k w) (seq 0 n) with
    | Some k =>
        List.length (issued AuthLogin polls) = S k /\
        clock w + 3000 * Z.of_nat k <= clock (snd (reconnect env n w))
    | None =>
        List.length (issued AuthLogin polls) = n /\
        clock w + 3000 * Z.of_nat n <= clock (snd (reconnect env n w))
    end.
Proof.
  induction n as [|n IH]; intros w.
  - exists []. cbn [reconnect]. unfold bind. cbn [log_test fst snd ret seq find].
    change (calls (set_test_log ?l ?x)) with (calls x).
    change (clock (set_test_log ?l ?x)) with (clock x).
    rewrite app_nil_r. repeat split; try constructor; try reflexivity. simpl. lia.
  - rewrite reconnect_S. cbn [seq find].
    change (poll_ok env 0 w) with (fst (fst (check_chain_controller env w))).
    destruct (check_chain_controller_calls env w) as (rode & Hcalls & Hrode).
    pose proof (check_chain_controller_forward env w) as Hfwd.
    assert (Hnone : issued AuthLogin rode = []).
    { apply issued_other. eapply Forall_impl; [ | exact Hrode ].
      intros c [-> _]. reflexivity. }
    assert (Hkind : Forall (fun c => (fst c = AuthLogin \/ fst c = RodeDeployed)
                                     /\ clock w <= snd c)
                      ((AuthLogin, clock w) :: rode)).
    { constructor; [ split; [ left; reflexivity | simpl; lia ] | ].
      eapply Forall_impl; [ | exact Hrode ]. intros c [Hc Ht]. auto. }
    destruct (fst (fst (check_chain_controller env w))) eqn:Hok.
    + exists ((AuthLogin, clock w) :: rode). cbn [fst snd log_test].
      change (calls (set_test_log ?l ?x)) with (calls x).
      change (clock (set_test_log ?l ?x)) with (clock x).
      split; [ exact Hcalls | ]. split; [ exact Hkind | ].
      change ((AuthLogin, clock w) :: rode) with ([(AuthLogin, clock w)] ++ rode).
      rewrite issued_app, Hnone. cbn.
      repeat split; try (constructor; constructor); lia.
    + set (w2 := snd (sleep 3000 (snd (check_chain_controller env w)))).
      assert (Hclock2 : clock w2 = clock (snd (check_chain_controller env w)) + 3000)
        by reflexivity.
      assert (Hcalls2 : calls w2 = calls w ++ (AuthLogin, clock w) :: rode)
        by exact Hcalls.
      destruct (IH w2) as (rest & Hrest & Hkind2 & Hsorted & Hhd & Hfind).
      assert (Hshift : forall k, poll_ok env (S k) w = poll_ok env k w2) by reflexivity.
      rewrite (find_seq_shifted _ _ n Hshift).
      exists (((AuthLogin, clock w) :: rode) ++ rest).
      assert (Hissued : issued AuthLogin (((AuthLogin, clock w) :: rode) ++ rest)
                        = clock w :: issued AuthLogin rest).
      { change ((AuthLogin, clock w) :: rode) with ([(AuthLogin, clock w)] ++ rode).
        rewrite !issued_app, Hnone. reflexivity. }
      rewrite Hissued.
      split; [ rewrite Hrest, Hcalls2, <- app_assoc; reflexivity | ].
      split.
      { apply Forall_app. split; [ exact Hkind | ].
        eapply Forall_impl; [ | exact Hkind2 ]. intros c [Hc Ht]. split; [ exact Hc | lia ]. }
      split.
      { constructor; [ exact Hsorted | ].
        destruct (issued AuthLogin rest) as [|t0 l]; [ constructor | ].
        destruct n as [|n']; [ discriminate Hhd | ].
        injection Hhd as ->. constructor. lia. }
      split; [ reflexivity | ].
      destruct (find (fun k => poll_ok env k w2) (seq 0 n)) as [k|]; cbn [option_map];
        destruct Hfind as [Hlen Hclock]; cbn [List.length]; rewrite Hlen;
        split; try reflexivity; rewrite Nat2Z.inj_succ; lia.
Qed.

(** When the 15 s have passed: the restart request was made at the start,
    and answered within its 5 s. *)
Lemma settled_facts env w :
  clock (settled env w) = restart_answered env w + 15000 /\
  calls (settled env w) = calls w ++ [(DeviceRestart, clock w)] /\
  ncalls (settled env w) AuthLogin = ncalls w AuthLogin /\
  ncalls (settled env w) DeviceRestart = S (ncalls w DeviceRestart) /\
  clock w <= restart_answered env w <= clock w + 5000.
Proof.
  unfold settled, restart_answered. cbn [log_test sleep snd].
  change (clock (set_clock ?t ?x)) with t.
  change (calls (set_clock ?t ?x)) with (calls x).
  change (ncalls (set_clock ?t ?x)) with (ncalls x).
  change (clock (set_test_log ?l ?x)) with (clock x).
  change (calls (set_test_log ?l ?x)) with (calls x).
  change (ncalls (set_test_log ?l ?x)) with (ncalls x).
  unfold ask. cbn [ncalls clock calls set_test_log].
  destruct (call_timeout DeviceRestart <=? _) eqn:E;
    cbn [snd clock calls ncalls set_calls set_ncalls set_clock set_test_log Endpoint_eqb];
    change (call_timeout DeviceRestart) with 5000 in *.
  - repeat split; lia.
  - apply Z.leb_gt in E. repeat split; lia.
Qed.

(** C6 (as the code has it).  [restart_chain_controller] issues exactly one
    restart request, and apart from it only the logins and rode reads of its
    health checks.  When the restart request itself fails, it reports
    failure at once, without waiting and without a single poll.  When the
    request is answered, no poll is made before the 15 s of the settle
    interval have passed: the first poll starts exactly 15 s after the
    answer.  It then polls the health check up to five times, each poll
    starting at least 3 s after the one before: the first successful poll
    returns true and ends the polling, and after five failed polls, each
    followed by its 3 s, and only then, it returns false. *)
Theorem restart_then_poll_five_times env w :
  let r := fst (restart_chain_controller env w) in
  let w' := snd (restart_chain_controller env w) in
  let answered := restart_answered env w in
  ncalls w' DeviceRestart = S (ncalls w DeviceRestart) /\
  clock w <= answered /\
  exists polls,
    calls w' = calls w ++ (DeviceRestart, clock w) :: polls /\
    Forall (fun c => (fst c = AuthLogin \/ fst c = RodeDeployed) /\
                     answered + 15000 <= snd c) polls /\
    Sorted (fun a b => a + 3000 <= b) (issued AuthLogin polls) /\
    if restart_accepted env w then
      hd_error (issued AuthLogin polls) = Some (answered + 15000) /\
      clock w + 15000 <= clock (settled env w) /\
      match find (fun k => poll_ok env k (settled env w)) (seq 0 5) with
      | Some k =>
          r = true /\ ncalls w' AuthLogin = (ncalls w AuthLogin + S k)%nat /\
          List.length (issued AuthLogin polls) = S k /\
          answered + 15000 + 3000 * Z.of_nat k <= clock w'
      | None =>
          r = false /\ ncalls w' AuthLogin = (ncalls w AuthLogin + 5)%nat /\
          List.length (issued AuthLogin polls) = 5%nat /\
          clock (settled env w) + 5 * 3000 <= clock w' /\
          answered + 15000 + 5 * 3000 <= clock w'
      end
    else
      r = false /\ polls = [] /\ ncalls w' AuthLogin = ncalls w AuthLogin /\
      clock w' = answered /\ clock w' < clock w + 15000.
Proof.
  intros r w' answered. subst r w' answered.
  rewrite restart_chain_controller_unfold.
  destruct (settled_facts env w) as (Hclock & Hcalls & Hlogin & Hrestart & Hquick).
  destruct (restart_accepted env w).
  - pose proof (reconnect_spec env 5 (settled env w)) as Hspec.
    destruct (reconnect_calls env 5 (settled env w))
      as (polls & Hpolls & Hkind & Hsorted & Hhd & Hfind).
    assert (Hrestart' : ncalls (snd (reconnect env 5 (settled env w))) DeviceRestart
                        = S (ncalls w DeviceRestart)).
    { destruct (find (fun k => poll_ok env k (settled env w)) (seq 0 5)) as [k|].
      - destruct Hspec as (_ & _ & Hd). rewrite Hd. exact Hrestart.
      - destruct Hspec as (_ & Hw). rewrite Hw. cbn [log_test snd].
        change (ncalls (set_test_log ?l ?x)) with (ncalls x).
        rewrite after_failed_polls_no_restart. exact Hrestart. }
    split; [ exact Hrestart' | ]. split; [ lia | ].
    exists polls.
    split; [ rewrite Hpolls, Hcalls, <- app_assoc; reflexivity | ].
    split.
    { eapply Forall_impl; [ | exact Hkind ]. intros c [Hc Ht].
      split; [ exact Hc | lia ]. }
    split; [ exact Hsorted | ].
    split; [ rewrite Hhd, Hclock; reflexivity | ].
    split; [ lia | ].
    destruct (find (fun k => poll_ok env k (settled env w)) (seq 0 5)) as [k|].
    + destruct Hspec as (Hres & Hn & _). destruct Hfind as [Hlen Hlast].
      rewrite Hres, Hn, Hlogin. repeat split; try assumption; lia.
    + destruct Hspec as (Hres & Hw). destruct Hfind as [Hlen Hlast].
      rewrite Hres. change (Z.of_nat 5) with 5 in Hlast.
      split; [ reflexivity | ].
      split.
      { rewrite Hw. cbn [log_test snd].
        change (ncalls (set_test_log ?l ?x)) with (ncalls x).
        rewrite after_failed_polls_logins, Hlogin. reflexivity. }
      repeat split; try assumption; lia.
  - cbn [fst snd log_test].
    change (ncalls (set_test_log ?l ?x)) with (ncalls x).
    change (clock (set_test_log ?l ?x)) with (clock x).
    change (calls (set_test_log ?l ?x)) with (calls x).
    rewrite ask_calls, !ask_ncalls. cbn [Endpoint_eqb].
    change (calls (set_test_log ?l ?x)) with (calls x).
    change (ncalls (set_test_log ?l ?x)) with (ncalls x).
    change (clock (set_test_log ?l ?x)) with (clock x).
    assert (Hsame : clock (snd (ask env DeviceRestart
                                  (set_test_log (test_log w ++ [LogRestarting]) w)))
                    = restart_answered env w).
    { unfold restart_answered, ask. cbn [ncalls clock calls set_test_log].
      destruct (call_timeout DeviceRestart <=? _); reflexivity. }
    rewrite Hsame.
    split; [ reflexivity | ]. split; [ lia | ].
    exists []. repeat split; try constructor; lia.
Qed.

(** C6, counterexample.  The controller is not connected and its restart
    endpoint does not answer: failure is reported within the 15 s of the
    settle interval, after no poll at all. *)
Lemma failed_restart_is_reported_without_polling :
  let run := restart_chain_controller env_restart_refused (initial_world 0) in
  fst (fst (check_chain_controller env_restart_refused (initial_world 0))) = false /\
  fst run = false /\
  ncalls (snd run) AuthLogin = 0%nat /\
  ncalls (snd run) RodeDeployed = 0%nat /\
  clock (snd run) - clock (initial_world 0) < 15000.
Proof.
  cbv zeta. repeat split; vm_compute; reflexivity.
Qed.
(** ** The health monitor *)

(** X1.  The health check reports the controller live exactly when the login
    gives a token, the rode reading is delivered, and its ['$source'] is a
    string that starts with ['ws.'].  It logs in once, reads the rode at
    most once, and never touches the restart endpoint. *)
Theorem check_chain_controller_verdict env w :
  let r := check_chain_controller env w in
  (fst (fst r) = true <->
   exists body data source,
     fst (ask env AuthLogin w) = Ok body /\
     json_truthy (dict_get "token" body JNull) = true /\
     fst (ask env RodeDeployed w) = Ok data /\
     dict_get "$source" data (JStr "") = JStr source /\
     String.prefix "ws." source = true) /\
  ncalls (snd r) AuthLogin = S (ncalls w AuthLogin) /\
  (ncalls (snd r) RodeDeployed <= S (ncalls w RodeDeployed))%nat /\
  ncalls (snd r) DeviceRestart = ncalls w DeviceRestart.
Proof.
  intros r. subst r.
  split; [ | split; [ apply check_chain_controller_logins
                    | split; [ | apply check_chain_controller_no_restart ] ] ].
  - unfold check_chain_controller, get_auth_token, bind.
    assert (Hrode : fst (ask env RodeDeployed (snd (ask env AuthLogin w)))
                    = fst (ask env RodeDeployed w))
      by (apply ask_reply_ncalls; rewrite ask_ncalls; reflexivity).
    remember (fst (ask env RodeDeployed w)) as rode eqn:Erode.
    remember (fst (ask env AuthLogin w)) as login eqn:Elogin.
    destruct (ask env AuthLogin w) as [l w1]. cbn [fst snd] in *. subst l.
    destruct login as [body|code|].
    + cbn [ret]. destruct (json_truthy (dict_get "token" body JNull)) eqn:Htoken;
        cbn [negb].
      * destruct (ask env RodeDeployed w1) as [rd w2]. cbn [fst snd] in *. subst rd.
        destruct rode as [data|code|].
        -- destruct (dict_get "$source" data (JStr "")) as [ |b|q|source|l|d] eqn:Hsrc;
             cbn [ret fst snd];
             try (split; [ discriminate | intros (b' & d' & s' & E1 & _ & E2 & E3 & _) ];
                  injection E2 as <-; rewrite Hsrc in E3; discriminate).
           destruct (String.prefix "ws." source) eqn:Hprefix; cbn [ret fst snd].
           ++ split; [ intros _ | reflexivity ].
              exists body, data, source. auto.
           ++ split; [ discriminate | ].
              intros (b' & d' & s' & _ & _ & E2 & E3 & E4).
              injection E2 as <-. rewrite Hsrc in E3. injection E3 as <-.
              rewrite Hprefix in E4. discriminate.
        -- cbn [ret fst snd]. split; [ discriminate | ].
           intros (b' & d' & s' & _ & _ & E2 & _). discriminate.
        -- cbn [ret fst snd]. split; [ discriminate | ].
           intros (b' & d' & s' & _ & _ & E2 & _). discriminate.
      * cbn [ret fst snd]. split; [ discriminate | ].
        intros (b' & d' & s' & E1 & E2 & _). injection E1 as <-.
        rewrite Htoken in E2. discriminate.
    + unfold log_test, ret. cbn [fst snd json_truthy negb].
      split; [ discriminate | ].
      intros (b' & d' & s' & E1 & _). discriminate.
    + unfold log_test, ret. cbn [fst snd json_truthy negb].
      split; [ discriminate | ].
      intros (b' & d' & s' & E1 & _). discriminate.
  - unfold check_chain_controller, get_auth_token, bind.
    pose proof (ask_ncalls env AuthLogin w RodeDeployed) as Hn. cbn [Endpoint_eqb] in Hn.
    destruct (ask env AuthLogin w) as [[body|code|] w1]; cbn [fst snd] in *;
      unfold log_test, ret; cbn [fst snd json_truthy negb ncalls set_test_log];
      try (rewrite Hn; lia).
    destruct (negb (json_truthy (dict_get "token" body JNull))); cbn [fst snd];
      [ rewrite Hn; lia | ].
    pose proof (ask_ncalls env RodeDeployed w1 RodeDeployed) as Hr.
    cbn [Endpoint_eqb] in Hr.
    destruct (ask env RodeDeployed w1) as [[data|code|] w2]; cbn [fst snd] in *;
      try (rewrite Hr, Hn; lia).
    destruct (dict_get "$source" data (JStr "")); cbn [fst snd];
      try (rewrite Hr, Hn; lia).
    destruct (String.prefix "ws." s); cbn [fst snd]; rewrite Hr, Hn; lia.
Qed.

(** [restart_chain_controller] issues its restart request exactly once. *)
Lemma restart_chain_controller_one_request env w :
  ncalls (snd (restart_chain_controller env w)) DeviceRestart
  = S (ncalls w DeviceRestart).
Proof.
  rewrite restart_chain_controller_unfold.
  assert (Hask : ncalls (snd (ask env DeviceRestart (snd (log_test LogRestarting w))))
                   DeviceRestart = S (ncalls w DeviceRestart))
    by (rewrite ask_ncalls; reflexivity).
  destruct (restart_accepted env w).
  - pose proof (reconnect_spec env 5 (settled env w)) as Hspec.
    destruct (find (fun k => poll_ok env k (settled env w)) (seq 0 5)) as [k|].
    + destruct Hspec as (_ & _ & Hd). rewrite Hd. exact Hask.
    + destruct Hspec as (_ & Hw). rewrite Hw.
      cbn [log_test snd].
      change (ncalls (set_test_log ?l ?x)) with (ncalls x).
      rewrite after_failed_polls_no_restart. exact Hask.
  - cbn [fst snd log_test].
    change (ncalls (set_test_log ?l ?x)) with (ncalls x). exact Hask.
Qed.

(** X2.  [ensure_chain_controller] restarts the controller only when the health
    check fails: a live controller gives true with no restart request, and a
    dead one costs exactly one restart request, whose outcome is returned. *)
Theorem ensure_chain_controller_restarts_only_when_down env w :
  let check := check_chain_controller env w in
  let r := ensure_chain_controller env w in
  if fst (fst check) then
    fst r = true /\ snd r = snd check
  else
    ncalls (snd r) DeviceRestart = S (ncalls w DeviceRestart) /\
    r = restart_chain_controller env
          (snd (log_test (LogControllerDown (snd (fst check))) (snd check))).
Proof.
  intros check r. subst check r.
  assert (E : ensure_chain_controller env w =
              if fst (fst (check_chain_controller env w))
              then (true, snd (check_chain_controller env w))
              else restart_chain_controller env
                     (snd (log_test (LogControllerDown
                                       (snd (fst (check_chain_controller env w))))
                             (snd (check_chain_controller env w))))).
  { unfold ensure_chain_controller, bind.
    destruct (check_chain_controller env w) as [[[|] msg] w1]; reflexivity. }
  rewrite E. clear E.
  pose proof (check_chain_controller_no_restart env w) as Hquiet.
  destruct (fst (fst (check_chain_controller env w))).
  - split; reflexivity.
  - split; [ | reflexivity ].
    rewrite restart_chain_controller_one_request.
    cbn [log_test snd].
    change (ncalls (set_test_log ?l ?x)) with (ncalls x).
    rewrite Hquiet. reflexivity.
Qed.

(** ** What a persisted record holds *)

Lemma hoare_true {A} (c : M A) : hoare (fun _ => True) c (fun _ _ => True).
Proof. intros w _. exact I. Qed.

Lemma hoare_constant {A} (phi : Prop) (c : M A) (Q : A -> World -> Prop) :
  (phi -> hoare (fun _ => True) c Q) -> hoare (fun _ => phi) c Q.
Proof. intros H w Hphi. apply H; [ exact Hphi | exact I ]. Qed.

Lemma forward_hoare {A} (a : Z) (c : M A) :
  forward c -> hoare (fun w => a <= clock w) c (fun _ w => a <= clock w).
Proof. intros H w Hw. specialize (H w). lia. Qed.

Lemma fail_test_aborts (P : World -> Prop) (Q : RunResult -> World -> Prop) p :
  (forall w, Q (Aborted p) w) -> hoare P (fail_test p) Q.
Proof. intros H w _. apply H. Qed.

Lemma get_position_forward env token : forward (get_position env token).
Proof.
  pose proof (ask_forward env). unfold get_position. split_command; auto.
Qed.

Lemma send_command_forward env token c : forward (send_command env token c).
Proof.
  pose proof (ask_forward env). unfold send_command. split_command; auto.
Qed.

(** Step over a command whose effect does not matter. *)
Ltac skip := eapply hoare_bind; [ apply hoare_true | intros ? ].

(** A record [run_test] persists holds the samples of one run of the
    sampling loop, started with no samples at a time [test_start] not before
    [start_time]; [end_time] is not before the end of the loop; the
    duration is their difference; the summary is computed from the samples;
    and the metadata name the test case. *)
Lemma run_test_record env n wind depth t w exit td :
  fst (run_test env n wind depth t w) = Saved exit td ->
  exists token sp w1,
    sample_loop env sample_loop_fuel t token sp (latitude sp) (longitude sp)
      (clock w1) TEST_TIMEOUT (clock w1 + SAMPLE_INTERVAL) [] w1
    = (samples td, exit,
       snd (sample_loop env sample_loop_fuel t token sp (latitude sp) (longitude sp)
              (clock w1) TEST_TIMEOUT (clock w1 + SAMPLE_INTERVAL) [] w1)) /\
    start_time (test_metadata td) <= clock w1 /\
    clock (snd (sample_loop env sample_loop_fuel t token sp (latitude sp)
                  (longitude sp) (clock w1) TEST_TIMEOUT
                  (clock w1 + SAMPLE_INTERVAL) [] w1))
    <= end_time (test_metadata td) /\
    duration_sec (test_metadata td)
    = end_time (test_metadata td) - start_time (test_metadata td) /\
    summary td = make_summary (samples td) /\
    test_number (test_metadata td) = n /\
    test_type (test_metadata td) = t /\
    wind_speed_kn (test_metadata td) = wind /\
    depth_m (test_metadata td) = depth.
Proof.
  set (Post := fun (r : RunResult) (_ : World) =>
    forall exit td, r = Saved exit td ->
    exists token sp w1,
      sample_loop env sample_loop_fuel t token sp (latitude sp) (longitude sp)
        (clock w1) TEST_TIMEOUT (clock w1 + SAMPLE_INTERVAL) [] w1
      = (samples td, exit,
         snd (sample_loop env sample_loop_fuel t token sp (latitude sp) (longitude sp)
                (clock w1) TEST_TIMEOUT (clock w1 + SAMPLE_INTERVAL) [] w1)) /\
      start_time (test_metadata td) <= clock w1 /\
      clock (snd (sample_loop env sample_loop_fuel t token sp (latitude sp)
                    (longitude sp) (clock w1) TEST_TIMEOUT
                    (clock w1 + SAMPLE_INTERVAL) [] w1))
      <= end_time (test_metadata td) /\
      duration_sec (test_metadata td)
      = end_time (test_metadata td) - start_time (test_metadata td) /\
      summary td = make_summary (samples td) /\
      test_number (test_metadata td) = n /\
      test_type (test_metadata td) = t /\
      wind_speed_kn (test_metadata td) = wind /\
      depth_m (test_metadata td) = depth).
  assert (Hfail : forall p w0, Post (Aborted p) w0)
    by (intros p w0 e d E; discriminate E).
  assert (H : hoare (fun _ => True) (run_test env n wind depth t) Post).
  { unfold run_test.
    skip. skip. skip.
    destruct (negb (json_truthy _)); [ apply fail_test_aborts, Hfail | ].
    skip. skip.
    destruct (negb _); [ apply fail_test_aborts, Hfail | ].
    skip. skip. skip. skip.
    match goal with |- hoare _ (if ?b then _ else _) _ => destruct b end;
      [ apply fail_test_aborts, Hfail | ].
    skip. skip. skip.
    destruct (negb _); [ apply fail_test_aborts, Hfail | ].
    skip. skip. skip. skip. skip.
    (* the clock from [start_time] on *)
    eapply hoare_bind; [ apply now_hoare | intros start ].
    apply (hoare_consequence _ (fun w0 => start <= clock w0) _ _ Post);
      [ | intros w0 [_ E]; lia | auto ].
    eapply hoare_bind;
      [ apply forward_hoare, get_position_forward | intros [start_pos|] ];
      [ | apply fail_test_aborts, Hfail ].
    eapply hoare_bind;
      [ apply forward_hoare, send_command_forward | intros result ].
    destruct (dict_has "error" result); [ apply fail_test_aborts, Hfail | ].
    eapply hoare_bind;
      [ apply forward_hoare, log_test_forward | intros ? ].
    replace (match t with autoDrop => TEST_TIMEOUT | autoRetrieve => TEST_TIMEOUT end)
      with TEST_TIMEOUT by (destruct t; reflexivity).
    intros w1 Hstart.
    unfold bind at 1. unfold now at 1. cbv beta iota.
    unfold bind at 1.
    match goal with
    | |- context [sample_loop env ?f t ?tok ?sp ?la ?lo ?ts ?md ?nx ?ss w1] =>
        remember (sample_loop env f t tok sp la lo ts md nx ss w1) as loop eqn:Hloop
    end.
    destruct loop as [[l e] w2].
    unfold bind, log_test, now, save_test_data, update_progress,
      count_passed, count_failed, count_completed, ret.
    cbn [fst snd].
    destruct (Nat.ltb 0 (List.length l) && _); cbn [fst snd];
      intros exit0 td0 E; injection E as <- <-;
      exists a1, start_pos, w1; rewrite <- Hloop; cbn;
      repeat split; try reflexivity; try lia. }
  intros Hrun. apply (H w I exit td Hrun).
Qed.

(** ** The samples of a run *)

(** One tick, spelled out. *)
Lemma sample_tick_unfold env token sp slat slon ts nxt samples w :
  sample_tick env token sp slat slon ts nxt samples w =
  if nxt <=? clock w then
    (match fst (collect_sample env token sp slat slon ts w) with
     | Some s => samples ++ [s]
     | None => samples
     end, clock w + SAMPLE_INTERVAL,
     snd (sleep 100 (snd (collect_sample env token sp slat slon ts w))))
  else (samples, nxt, snd (sleep 100 w)).
Proof.
  unfold sample_tick, bind, now. cbn [fst snd].
  destruct (nxt <=? clock w); [ | reflexivity ].
  destruct (collect_sample env token sp slat slon ts w) as [[s|] w1]; reflexivity.
Qed.

(** One iteration of the loop, spelled out. *)
Lemma sample_loop_step env fuel t token sp slat slon ts md nxt samples w :
  sample_loop env (S fuel) t token sp slat slon ts md nxt samples w =
  if clock w - ts <? md then
    let r := fst (sample_tick env token sp slat slon ts nxt samples w) in
    let w1 := snd (sample_tick env token sp slat slon ts nxt samples w) in
    match check_termination t (fst r) with
    | Continue => sample_loop env fuel t token sp slat slon ts md (snd r) (fst r) w1
    | Break entry => (fst r, ConditionMet, snd (log_test entry w1))
    | Raise => (fst r, CollectionError, snd (log_test LogCollectionError w1))
    end
  else (samples, TimedOut, w).
Proof.
  rewrite sample_loop_S.
  destruct (clock w - ts <? md); [ | reflexivity ].
  unfold bind at 1.
  destruct (sample_tick env token sp slat slon ts nxt samples w) as [r w1].
  cbv zeta. cbn [fst snd].
  destruct (check_termination t (fst r)); reflexivity.
Qed.

(** A sample is stamped with the time at which [collect_sample] ends. *)
Lemma collect_sample_timestamp env token sp slat slon st w s :
  fst (collect_sample env token sp slat slon st w) = Some s ->
  timestamp s = clock (snd (collect_sample env token sp slat slon st w)) /\
  elapsed_sec s = timestamp s - st.
Proof.
  unfold collect_sample, get_position, get_speed, get_heading,
    get_simulation_state, bind.
  destruct (ask env NavPosition w) as [[pos|c1|] w1]; cbn [ret];
    destruct (ask env NavSpeed w1) as [[v|c2|] w2]; cbn [ret];
    destruct (ask env NavHeading w2) as [[rad|c3|] w3]; cbn [ret];
    destruct (ask env SimulationState w3) as [[state|c4|] w4];
    cbn [ret fst snd]; try discriminate;
    match goal with
    | |- context [Q_truthy ?x] => destruct (Q_truthy x)
    end; cbn [ret now fst snd];
    try discriminate; intros E; injection E as <-; split; reflexivity.
Qed.

Lemma StronglySorted_snoc {A} (R : A -> A -> Prop) l x :
  StronglySorted R l -> Forall (fun a => R a x) l -> StronglySorted R (l ++ [x]).
Proof.
  induction l as [|a l IH]; intros Hs Hx; simpl.
  - constructor; constructor.
  - inversion Hs as [|a' l' Hs' Ha]; subst.
    inversion Hx as [|a' l' Hax Hx']; subst.
    constructor; [ apply IH; assumption | ].
    apply Forall_app. split; [ assumption | constructor; [ assumption | constructor ] ].
Qed.

(** The loop appends samples in the order of their time stamps, each
    stamped between the start of the test and the present. *)
Lemma sample_loop_in_time_order env fuel t token sp slat slon ts md :
  forall nxt samples w,
    Forall (fun s => ts <= timestamp s <= clock w /\ elapsed_sec s = timestamp s - ts)
      samples ->
    StronglySorted (fun a b => timestamp a <= timestamp b) samples ->
    ts <= clock w ->
    let res := sample_loop env fuel t token sp slat slon ts md nxt samples w in
    Forall (fun s => ts <= timestamp s /\ elapsed_sec s = timestamp s - ts)
      (fst (fst res)) /\
    StronglySorted (fun a b => timestamp a <= timestamp b) (fst (fst res)).
Proof.
  induction fuel as [|fuel IH]; intros nxt samples w Hstamps Hsorted Hstart.
  - simpl. split; [ | exact Hsorted ].
    eapply Forall_impl; [ | exact Hstamps ]. intros s (H1 & H2). split; [ lia | exact H2 ].
  - assert (Hdone : Forall (fun s => ts <= timestamp s /\ elapsed_sec s = timestamp s - ts)
                      samples)
      by (eapply Forall_impl; [ | exact Hstamps ];
          intros s (H1 & H2); split; [ lia | exact H2 ]).
    cbv zeta. rewrite sample_loop_step.
    destruct (clock w - ts <? md); [ | simpl; auto ].
    rewrite sample_tick_unfold. cbv zeta.
    pose proof (collect_sample_forward env token sp slat slon ts w) as Hfwd.
    set (w1 := snd (collect_sample env token sp slat slon ts w)) in *.
    assert (Hkeep : forall w2, clock w <= clock w2 ->
              Forall (fun s => ts <= timestamp s <= clock w2
                               /\ elapsed_sec s = timestamp s - ts) samples).
    { intros w2 Hw2. eapply Forall_impl; [ | exact Hstamps ].
      intros s (H1 & H2). split; [ lia | exact H2 ]. }
    destruct (nxt <=? clock w).
    + destruct (fst (collect_sample env token sp slat slon ts w)) as [s|] eqn:Hs.
      * apply collect_sample_timestamp in Hs. fold w1 in Hs. destruct Hs as [Ht He].
        assert (Hall : Forall (fun s0 => ts <= timestamp s0 <= clock (snd (sleep 100 w1))
                                         /\ elapsed_sec s0 = timestamp s0 - ts)
                         (samples ++ [s])).
        { apply Forall_app. split.
          - apply Hkeep. cbn. lia.
          - constructor; [ | constructor ]. cbn. split; [ lia | exact He ]. }
        assert (Hord : StronglySorted (fun a b => timestamp a <= timestamp b)
                         (samples ++ [s])).
        { apply StronglySorted_snoc; [ exact Hsorted | ].
          eapply Forall_impl; [ | exact Hstamps ]. intros a (H1 & _). lia. }
        cbn [fst snd].
        destruct (check_termination t (samples ++ [s])); cbn [fst snd].
        -- apply IH; [ exact Hall | exact Hord | cbn; lia ].
        -- split; [ | exact Hord ].
           eapply Forall_impl; [ | exact Hall ].
           intros a (H1 & H2). split; [ lia | exact H2 ].
        -- split; [ | exact Hord ].
           eapply Forall_impl; [ | exact Hall ].
           intros a (H1 & H2). split; [ lia | exact H2 ].
      * cbn [fst snd].
        destruct (check_termination t samples); cbn [fst snd]; auto.
        apply IH; [ apply Hkeep; cbn; lia | exact Hsorted | cbn; lia ].
    + cbn [fst snd].
      destruct (check_termination t samples); cbn [fst snd]; auto.
      apply IH; [ apply Hkeep; cbn; lia | exact Hsorted | cbn; lia ].
Qed.

(** X3.  Within a persisted TestRun, the samples are in the order of their
    time stamps, and [elapsed_sec] is never negative and never decreases
    from one sample to the next. *)
Theorem elapsed_sec_never_decreases env n wind depth t w exit td :
  fst (run_test env n wind depth t w) = Saved exit td ->
  StronglySorted (fun a b => elapsed_sec a <= elapsed_sec b) (samples td) /\
  Forall (fun s => 0 <= elapsed_sec s) (samples td).
Proof.
  intros Hrun.
  destruct (run_test_record env n wind depth t w exit td Hrun)
    as (token & sp & w1 & Hloop & _).
  pose proof (sample_loop_in_time_order env sample_loop_fuel t token sp
                (latitude sp) (longitude sp) (clock w1) TEST_TIMEOUT
                (clock w1 + SAMPLE_INTERVAL) [] w1
                (Forall_nil _) (SSorted_nil _) (Z.le_refl _)) as H.
  cbv zeta in H. rewrite Hloop in H. cbn [fst snd] in H.
  destruct H as [Hstamps Hsorted].
  split.
  - clear Hloop. induction Hsorted as [|a l Hl IH Ha]; [ constructor | ].
    inversion Hstamps as [|a' l' (Ha1 & Ha2) Hl']; subst.
    constructor; [ apply IH; exact Hl' | ].
    rewrite Forall_forall in *. intros b Hb.
    destruct (Hl' b Hb) as (Hb1 & Hb2). specialize (Ha b Hb). lia.
  - eapply Forall_impl; [ | exact Hstamps ]. intros s (H1 & H2). lia.
Qed.

(** The loop takes a sample at most every [SAMPLE_INTERVAL], and only
    while the timeout has not elapsed. *)
Lemma sample_loop_sample_count env fuel t token sp slat slon ts md :
  forall nxt samples w,
    ts + SAMPLE_INTERVAL * (1 + Z.of_nat (List.length samples)) <= nxt ->
    SAMPLE_INTERVAL * Z.of_nat (List.length samples) < md ->
    let res := sample_loop env fuel t token sp slat slon ts md nxt samples w in
    SAMPLE_INTERVAL * Z.of_nat (List.length (fst (fst res))) < md.
Proof.
  unfold SAMPLE_INTERVAL.
  induction fuel as [|fuel IH]; intros nxt samples w Hnxt Hcount.
  - simpl. exact Hcount.
  - cbv zeta. rewrite sample_loop_step.
    destruct (clock w - ts <? md) eqn:Hguard; [ | simpl; exact Hcount ].
    apply Z.ltb_lt in Hguard.
    rewrite sample_tick_unfold. cbv zeta. unfold SAMPLE_INTERVAL.
    destruct (nxt <=? clock w) eqn:Hdue.
    + apply Z.leb_le in Hdue.
      destruct (fst (collect_sample env token sp slat slon ts w)) as [s|];
        cbn [fst snd].
      * assert (Hlen : Z.of_nat (List.length (samples ++ [s]))
                        = Z.of_nat (List.length samples) + 1)
          by (rewrite length_app; simpl; lia).
        destruct (check_termination t (samples ++ [s])); cbn [fst snd];
          try (rewrite Hlen; lia).
        apply IH; rewrite Hlen; lia.
      * destruct (check_termination t samples); cbn [fst snd]; try exact Hcount.
        apply IH; lia.
    + cbn [fst snd].
      destruct (check_termination t samples); cbn [fst snd]; try exact Hcount.
      apply IH; lia.
Qed.

(** When the loop is left by the timeout, the timeout has elapsed; when it
    is left by the completion condition or by an error, there is a sample. *)
Lemma sample_loop_exit env fuel t token sp slat slon ts md :
  forall nxt samples w,
    let res := sample_loop env fuel t token sp slat slon ts md nxt samples w in
    clock w <= clock (snd res) /\
    (snd (fst res) = TimedOut -> md <= clock (snd res) - ts) /\
    (snd (fst res) = ConditionMet \/ snd (fst res) = CollectionError ->
     fst (fst res) <> []).
Proof.
  induction fuel as [|fuel IH]; intros nxt samples w.
  - simpl. split; [ lia | ].
    split; [ discriminate | intros [H | H]; discriminate ].
  - cbv zeta. rewrite sample_loop_step.
    destruct (clock w - ts <? md) eqn:Hguard.
    + pose proof (sample_tick_clock env token sp slat slon ts nxt samples w) as Hclock.
      cbv zeta.
      destruct (check_termination t
                  (fst (fst (sample_tick env token sp slat slon ts nxt samples w))))
        eqn:Hcheck.
      * specialize (IH (snd (fst (sample_tick env token sp slat slon ts nxt samples w)))
                      (fst (fst (sample_tick env token sp slat slon ts nxt samples w)))
                      (snd (sample_tick env token sp slat slon ts nxt samples w))).
        cbv zeta in IH. destruct IH as (H1 & H2 & H3).
        split; [ lia | split; assumption ].
      * cbn [fst snd log_test].
        change (clock (set_test_log ?l ?x)) with (clock x).
        split; [ lia | ]. split; [ discriminate | ].
        intros _ E. rewrite E in Hcheck. discriminate.
      * cbn [fst snd log_test].
        change (clock (set_test_log ?l ?x)) with (clock x).
        split; [ lia | ]. split; [ discriminate | ].
        intros _ E. rewrite E in Hcheck. discriminate.
    + apply Z.ltb_ge in Hguard. cbn [fst snd].
      split; [ lia | ]. split; [ intros _; lia | ].
      intros [H | H]; discriminate.
Qed.

(** ** C2: missed reads

    The loop is left before the timeout only at the end of an iteration
    that appended a Sample: 100 ms (the sleep) after that Sample was
    stamped.  An iteration that collects nothing, whatever the reason, goes
    on to the next one. *)
Lemma sample_loop_early_exit env fuel t token sp slat slon ts md :
  forall nxt samples w,
    check_termination t samples = Continue ->
    let res := sample_loop env fuel t token sp slat slon ts md nxt samples w in
    (exists added, fst (fst res) = samples ++ added) /\
    (snd (fst res) = ConditionMet \/ snd (fst res) = CollectionError ->
     exists added s,
       fst (fst res) = samples ++ added ++ [s] /\
       clock (snd res) = timestamp s + 100).
Proof.
  induction fuel as [|fuel IH]; intros nxt samples w Hcheck.
  - simpl. split; [ exists []; rewrite app_nil_r; reflexivity | ].
    intros [H | H]; discriminate.
  - cbv zeta. rewrite sample_loop_step.
    destruct (clock w - ts <? md).
    2:{ cbn [fst snd]. split; [ exists []; rewrite app_nil_r; reflexivity | ].
        intros [H | H]; discriminate. }
    rewrite sample_tick_unfold. cbv zeta.
    destruct (nxt <=? clock w).
    + destruct (fst (collect_sample env token sp slat slon ts w)) as [s|] eqn:Hs;
        cbn [fst snd].
      * destruct (collect_sample_timestamp env token sp slat slon ts w s Hs)
          as [Hstamp _].
        destruct (check_termination t (samples ++ [s])) eqn:Hnew; cbn [fst snd].
        -- destruct (IH (clock w + SAMPLE_INTERVAL) (samples ++ [s])
                       (snd (sleep 100 (snd (collect_sample env token sp slat slon ts w))))
                       Hnew) as [(added & Hadd) Hearly].
           cbv zeta in Hadd, Hearly. split.
           ++ exists ([s] ++ added). rewrite Hadd, <- app_assoc. reflexivity.
           ++ intros Hexit. destruct (Hearly Hexit) as (added' & s' & E & Hclock).
              exists ([s] ++ added'), s'. rewrite E, Hclock, <- !app_assoc.
              split; reflexivity.
        -- split; [ exists [s]; reflexivity | ]. intros _.
           exists [], s. split; [ reflexivity | ].
           cbn [log_test sleep snd]. rewrite Hstamp. reflexivity.
        -- split; [ exists [s]; reflexivity | ]. intros _.
           exists [], s. split; [ reflexivity | ].
           cbn [log_test sleep snd]. rewrite Hstamp. reflexivity.
      * rewrite Hcheck. apply IH. exact Hcheck.
    + cbn [fst snd]. rewrite Hcheck. apply IH. exact Hcheck.
Qed.

(** When every further call of [collect_sample] comes back empty, the loop
    runs to the timeout with the samples it had. *)
Lemma sample_loop_stalled env fuel t token sp slat slon ts md :
  forall nxt samples w,
    check_termination t samples = Continue ->
    md - (clock w - ts) <= 100 * Z.of_nat fuel ->
    (forall w1, (forall e, (ncalls w e <= ncalls w1 e)%nat) ->
                fst (collect_sample env token sp slat slon ts w1) = None) ->
    fst (sample_loop env (S fuel) t token sp slat slon ts md nxt samples w)
    = (samples, TimedOut).
Proof.
  induction fuel as [|fuel IH]; intros nxt samples w Hcheck Hfuel Hmiss;
    rewrite sample_loop_step.
  - destruct (clock w - ts <? md) eqn:Hguard; [ | reflexivity ].
    apply Z.ltb_lt in Hguard. lia.
  - destruct (clock w - ts <? md) eqn:Hguard; [ | reflexivity ].
    pose proof (sample_tick_clock env token sp slat slon ts nxt samples w) as Hclock.
    pose proof (fun e => sample_tick_grows env token sp slat slon ts nxt samples e w)
      as Hgrows.
    assert (Hsame : fst (fst (sample_tick env token sp slat slon ts nxt samples w))
                    = samples).
    { rewrite sample_tick_unfold. destruct (nxt <=? clock w); [ | reflexivity ].
      rewrite (Hmiss w) by (intros e; lia). reflexivity. }
    cbv zeta. rewrite Hsame, Hcheck.
    apply IH.
    + exact Hcheck.
    + lia.
    + intros w1 Hw1. apply Hmiss. intros e.
      specialize (Hgrows e). specialize (Hw1 e). lia.
Qed.




(** X4.  The sampling loop of [run_test] comes to an end: the 6001
    iterations that the timeout allows are never used up.  A TestRun that is
    left by the timeout has lasted at least the timeout; one that is left by
    the completion condition or by the handler has at least one Sample. *)
Theorem how_a_run_ends env n wind depth t w exit td :
  fst (run_test env n wind depth t w) = Saved exit td ->
  exit <> OutOfFuel /\
  (exit = TimedOut -> TEST_TIMEOUT <= duration_sec (test_metadata td)) /\
  (exit = ConditionMet \/ exit = CollectionError -> samples td <> []).
Proof.
  intros Hrun.
  destruct (run_test_record env n wind depth t w exit td Hrun)
    as (token & sp & w1 & Hloop & Hstart & Hend & Hduration & _).
  pose proof (sample_loop_fuel_enough env t token sp (latitude sp) (longitude sp)
                (clock w1 + SAMPLE_INTERVAL) [] w1) as Hfuel.
  pose proof (sample_loop_exit env sample_loop_fuel t token sp (latitude sp)
                (longitude sp) (clock w1) TEST_TIMEOUT (clock w1 + SAMPLE_INTERVAL)
                [] w1) as Hexit.
  cbv zeta in Hexit. rewrite Hloop in Hfuel, Hexit. cbn [fst snd] in Hfuel, Hexit.
  destruct Hexit as (_ & Htimeout & Hsample).
  split; [ exact Hfuel | ].
  split; [ | exact Hsample ].
  intros E. specialize (Htimeout E). lia.
Qed.

(** X5.  A TestRun holds fewer Samples than sampling intervals fit into the
    timeout: fewer than 1200. *)
Theorem sample_count_is_bounded env n wind depth t w exit td :
  fst (run_test env n wind depth t w) = Saved exit td ->
  Z.of_nat (List.length (samples td)) < TEST_TIMEOUT / SAMPLE_INTERVAL /\
  (sample_count (test_metadata td) < 1200)%nat.
Proof.
  intros Hrun.
  destruct (run_test_record env n wind depth t w exit td Hrun)
    as (token & sp & w1 & Hloop & _).
  pose proof (run_test_spec env n wind depth t w) as Hspec.
  rewrite Hrun in Hspec. destruct Hspec as (_ & _ & _ & Hcount & _).
  assert (H : SAMPLE_INTERVAL * Z.of_nat (List.length (samples td)) < TEST_TIMEOUT).
  { pose proof (sample_loop_sample_count env sample_loop_fuel t token sp
                  (latitude sp) (longitude sp) (clock w1) TEST_TIMEOUT
                  (clock w1 + SAMPLE_INTERVAL) [] w1) as H.
    cbv zeta in H. rewrite Hloop in H. cbn [fst snd] in H.
    apply H; unfold SAMPLE_INTERVAL, TEST_TIMEOUT; simpl; lia. }
  change (TEST_TIMEOUT / SAMPLE_INTERVAL) with 1200.
  unfold SAMPLE_INTERVAL, TEST_TIMEOUT in H.
  split; [ lia | rewrite Hcount; lia ].
Qed.

(** What the check said after every sample of the loop: it let the loop
    continue after every sample but the last, and after the last one too
    unless the loop was left by the [break] or by the handler. *)
Lemma sample_loop_checks env fuel t token sp slat slon ts md :
  forall nxt samples w,
    Forall (fun x => check_termination t [x] = Continue) samples ->
    let res := fst (sample_loop env fuel t token sp slat slon ts md nxt samples w) in
    match snd res with
    | ConditionMet =>
        exists front s entry,
          fst res = front ++ [s] /\
          Forall (fun x => check_termination t [x] = Continue) front /\
          check_termination t [s] = Break entry
    | CollectionError =>
        exists front s,
          fst res = front ++ [s] /\
          Forall (fun x => check_termination t [x] = Continue) front /\
          check_termination t [s] = Raise
    | _ => Forall (fun x => check_termination t [x] = Continue) (fst res)
    end.
Proof.
  induction fuel as [|fuel IH]; intros nxt samples w Hquiet.
  - simpl. exact Hquiet.
  - rewrite sample_loop_S.
    destruct (clock w - ts <? md); [ | simpl; exact Hquiet ].
    unfold bind at 1.
    pose proof (sample_tick_samples env token sp slat slon ts nxt samples w) as Htick.
    destruct (sample_tick env token sp slat slon ts nxt samples w) as [r w1].
    simpl in Htick.
    assert (Hold : check_termination t samples = Continue).
    { rewrite check_termination_last.
      destruct (last_sample samples) as [latest|] eqn:Hlast; [ | reflexivity ].
      apply last_sample_In in Hlast.
      rewrite Forall_forall in Hquiet. apply Hquiet. exact Hlast. }
    destruct Htick as [Hsame | (s & _ & Happ)].
    + rewrite Hsame, Hold. apply IH. exact Hquiet.
    + rewrite Happ, check_termination_last, last_sample_app.
      destruct (check_termination t [s]) eqn:Hcheck.
      * apply IH. apply Forall_app. split; [ exact Hquiet | ].
        constructor; [ exact Hcheck | constructor ].
      * simpl. exists samples, s, entry. auto.
      * simpl. exists samples, s. auto.
Qed.

(** X6.  After every Sample of a TestRun but the last, the termination
    check of the run's operation let the loop continue.  When the loop was
    left by the completion condition the last Sample meets it; when it was
    left by the handler the check raised on the last Sample; when it was
    left by the timeout the check let the loop continue after every Sample.
    On a DEPLOY run the check lets the loop continue after a Sample exactly
    when the scope ratio of the Sample (0 when absent) is a number below
    5.0. *)
Theorem sampling_stops_at_first_completion env n wind depth t w exit td :
  fst (run_test env n wind depth t w) = Saved exit td ->
  (forall front x back,
     samples td = front ++ x :: back -> back <> [] ->
     check_termination t [x] = Continue) /\
  (exit = ConditionMet ->
   exists front s,
     samples td = front ++ [s] /\ completes t s = true) /\
  (exit = CollectionError ->
   exists front s,
     samples td = front ++ [s] /\ check_termination t [s] = Raise) /\
  (exit = TimedOut ->
   Forall (fun x => check_termination t [x] = Continue) (samples td)) /\
  (forall s, check_termination autoDrop [s] = Continue <->
     exists v, py_number (dict_get "scopeRatio" (sample_sim_state s) (JNum 0)) = Some v
               /\ (v < 5)%Q).
Proof.
  intros Hrun.
  destruct (run_test_record env n wind depth t w exit td Hrun)
    as (token & sp & w1 & Hloop & _).
  pose proof (sample_loop_checks env sample_loop_fuel t token sp
                (latitude sp) (longitude sp) (clock w1) TEST_TIMEOUT
                (clock w1 + SAMPLE_INTERVAL) [] w1 (Forall_nil _)) as H.
  cbv zeta in H. rewrite Hloop in H. cbn [fst snd] in H.
  assert (Hfront : forall l y, Forall (fun x => check_termination t [x] = Continue) l ->
            forall front x back, l ++ [y] = front ++ x :: back -> back <> [] ->
            check_termination t [x] = Continue).
  { intros l y Hl front x back E Hback.
    destruct (exists_last Hback) as (back' & z & ->).
    change (front ++ x :: back' ++ [z]) with (front ++ (x :: back') ++ [z]) in E.
    rewrite app_assoc in E. apply app_inj_tail in E. destruct E as [-> _].
    rewrite Forall_forall in Hl. apply Hl. apply in_or_app. right. left. reflexivity. }
  assert (Hall : forall l, Forall (fun x => check_termination t [x] = Continue) l ->
            forall front x back, l = front ++ x :: back -> back <> [] ->
            check_termination t [x] = Continue).
  { intros l Hl front x back -> _. rewrite Forall_forall in Hl.
    apply Hl. apply in_or_app. right. left. reflexivity. }
  split; [ | split; [ | split; [ | split ] ] ].
  - destruct exit.
    + destruct H as (front & s & entry & -> & Hq & _). apply (Hfront front s Hq).
    + apply (Hall _ H).
    + destruct H as (front & s & -> & Hq & _). apply (Hfront front s Hq).
    + apply (Hall _ H).
  - intros ->. destruct H as (front & s & entry & E & _ & Hb).
    exists front, s. split; [ exact E | ]. unfold completes. rewrite Hb. reflexivity.
  - intros ->. destruct H as (front & s & E & _ & Hr). exists front, s. auto.
  - intros ->. exact H.
  - intros s. unfold check_termination. cbn [last_sample].
    destruct (py_number (dict_get "scopeRatio" (sample_sim_state s) (JNum 0)))
      as [v|].
    + destruct (Qle_bool 5 v) eqn:E.
      * apply Qle_bool_iff in E.
        split; [ destruct (float_overflow v); discriminate | ].
        intros (v' & Hv & Hlt). injection Hv as <-.
        exfalso. apply (Qlt_not_le _ _ Hlt). exact E.
      * split; [ intros _ | reflexivity ].
        exists v. split; [ reflexivity | ].
        apply Qnot_le_lt. intros Hle. apply Qle_bool_iff in Hle.
        rewrite Hle in E. discriminate.
    + split; [ discriminate | intros (v & Hv & _); discriminate ].
Qed.

(** ** What a test leaves behind *)

(** Observations of the world that the clock, the log and the calls of all
    endpoints but the anchor command leave unchanged are unchanged by every
    helper of the runner except [send_command]. *)
Section SessionFrame.

Variable env : Env.
Variable X : Type.
Variable f : World -> X.
Hypothesis f_sleep : forall ms, stable f (sleep ms).
Hypothesis f_log : forall m, stable f (log_test m).
Hypothesis f_ask :
  forall e, Endpoint_eqb e AnchorCommand = false -> stable f (ask env e).

Lemma now_frame : stable f now.
Proof. intros w. reflexivity. Qed.

Lemma get_auth_token_frame : stable f (get_auth_token env).
Proof.
  pose proof (f_ask AuthLogin eq_refl).
  unfold get_auth_token. split_command; auto.
Qed.

Lemma check_chain_controller_frame : stable f (check_chain_controller env).
Proof.
  pose proof get_auth_token_frame. pose proof (f_ask RodeDeployed eq_refl).
  unfold check_chain_controller. split_command; auto.
Qed.

Lemma reconnect_frame n : stable f (reconnect env n).
Proof.
  pose proof check_chain_controller_frame.
  induction n; simpl; split_command; auto.
Qed.

Lemma restart_chain_controller_frame : stable f (restart_chain_controller env).
Proof.
  pose proof (reconnect_frame 5). pose proof (f_ask DeviceRestart eq_refl).
  unfold restart_chain_controller. split_command; auto.
Qed.

Lemma verify_server_frame : stable f (verify_server env).
Proof.
  pose proof get_auth_token_frame. pose proof (f_ask ServerRoot eq_refl).
  unfold verify_server. split_command; auto.
Qed.

Lemma ensure_chain_controller_frame : stable f (ensure_chain_controller env).
Proof.
  pose proof check_chain_controller_frame. pose proof (reconnect_frame 5).
  pose proof (f_ask DeviceRestart eq_refl).
  unfold ensure_chain_controller, restart_chain_controller. split_command; auto.
Qed.

Lemma stop_chain_frame : stable f (stop_chain env).
Proof.
  pose proof (f_ask StopChainScript eq_refl).
  unfold stop_chain. split_command; auto.
Qed.

Lemma reset_anchor_frame : stable f (reset_anchor env).
Proof.
  pose proof (f_ask ResetAnchorScript eq_refl).
  unfold reset_anchor. split_command; auto.
Qed.

Lemma configure_environment_frame wind depth :
  stable f (configure_environment env wind depth).
Proof.
  pose proof get_auth_token_frame. pose proof (f_ask SimulationConfig eq_refl).
  unfold configure_environment. split_command; auto.
Qed.

Lemma reset_simulation_frame : stable f (reset_simulation env).
Proof.
  pose proof get_auth_token_frame. pose proof (f_ask SimulationReset eq_refl).
  unfold reset_simulation. split_command; auto.
Qed.

Lemma get_position_frame token : stable f (get_position env token).
Proof.
  pose proof (f_ask NavPosition eq_refl).
  unfold get_position. split_command; auto.
Qed.

Lemma collect_sample_frame token sp slat slon st :
  stable f (collect_sample env token sp slat slon st).
Proof.
  pose proof (f_ask NavPosition eq_refl). pose proof (f_ask NavSpeed eq_refl).
  pose proof (f_ask NavHeading eq_refl). pose proof (f_ask SimulationState eq_refl).
  pose proof now_frame.
  unfold collect_sample, get_position, get_speed, get_heading, get_simulation_state.
  split_command; auto.
Qed.

Lemma sample_loop_frame fuel t token sp slat slon ts md :
  forall nxt samples,
    stable f (sample_loop env fuel t token sp slat slon ts md nxt samples).
Proof.
  pose proof (collect_sample_frame token sp slat slon ts). pose proof now_frame.
  induction fuel as [|fuel IH]; intros nxt samples; simpl.
  - apply stable_ret.
  - apply stable_bind; [ auto | intros now_ ].
    destruct (now_ - ts <? md); [ | apply stable_ret ].
    apply stable_bind; [ unfold sample_tick; split_command; auto | intros r ].
    destruct (check_termination t (fst r)); split_command; auto.
Qed.

End SessionFrame.

Lemma ask_session_view env e :
  Endpoint_eqb e AnchorCommand = false -> stable session_view (ask env e).
Proof.
  intros He w. unfold session_view. rewrite ask_ncalls, He.
  unfold ask. destruct (call_timeout e <=? _); reflexivity.
Qed.

Lemma send_command_session_view env token c records progress sent :
  hoare (fun w => session_view w = (records, progress, sent))
    (send_command env token c)
    (fun _ w => session_view w = (records, progress, S sent)).
Proof.
  intros w Hw. unfold session_view in *. injection Hw as H1 H2 H3.
  unfold send_command, bind.
  pose proof (ask_ncalls env AnchorCommand w AnchorCommand) as Hn.
  cbn [Endpoint_eqb] in Hn.
  assert (Hraw : raw_data (snd (ask env AnchorCommand w)) = raw_data w
                 /\ progress_file (snd (ask env AnchorCommand w)) = progress_file w)
    by (unfold ask; destruct (call_timeout AnchorCommand <=? _); split; reflexivity).
  destruct Hraw as [Hraw Hprog].
  destruct (ask env AnchorCommand w) as [[result|code|] w1]; cbn [fst snd ret] in *;
    rewrite Hraw, Hprog, Hn, H1, H2, H3; reflexivity.
Qed.

(** Step over a command that leaves an observation alone, given the frame
    lemmas in the context. *)
Ltac view :=
  eapply hoare_bind; [ apply stable_hoare; split_command; auto | intros ? ].

(** What [run_test] leaves behind, from a world [w]. *)
Lemma run_test_session_effects env n wind depth t w :
  let r := fst (run_test env n wind depth t w) in
  let w' := snd (run_test env n wind depth t w) in
  match r with
  | Aborted p =>
      raw_data w' = raw_data w /\
      progress_file w' = Some (progress_of n wind depth t RUNNING w) /\
      ncalls w' AnchorCommand
      = (ncalls w AnchorCommand + match p with PhaseCommand => 1 | _ => 0 end)%nat
  | Saved exit td =>
      raw_data w' = raw_data w ++ [td] /\
      progress_file w'
      = Some (progress_of n wind depth t
                (if has_samples r then DONE else FAILED) w') /\
      ncalls w' AnchorCommand = S (ncalls w AnchorCommand)
  end.
Proof.
  set (Post := fun (r : RunResult) (w' : World) =>
    match r with
    | Aborted p =>
        raw_data w' = raw_data w /\
        progress_file w' = Some (progress_of n wind depth t RUNNING w) /\
        ncalls w' AnchorCommand
        = (ncalls w AnchorCommand + match p with PhaseCommand => 1 | _ => 0 end)%nat
    | Saved exit td =>
        raw_data w' = raw_data w ++ [td] /\
        progress_file w'
        = Some (progress_of n wind depth t
                  (if has_samples r then DONE else FAILED) w') /\
        ncalls w' AnchorCommand = S (ncalls w AnchorCommand)
    end).
  set (records := raw_data w).
  set (progress := Some (progress_of n wind depth t RUNNING w)).
  set (sent := ncalls w AnchorCommand).
  assert (Hsleep : forall ms, stable session_view (sleep ms))
    by (intros ms w0; reflexivity).
  assert (Hlog : forall m, stable session_view (log_test m))
    by (intros m w0; reflexivity).
  pose proof (ask_session_view env) as Hask.
  pose proof (now_frame _ session_view) as Hnow.
  pose proof (get_auth_token_frame env _ session_view Hlog Hask).
  pose proof (ensure_chain_controller_frame env _ session_view Hsleep Hlog Hask).
  pose proof (stop_chain_frame env _ session_view Hsleep Hask).
  pose proof (reset_anchor_frame env _ session_view Hsleep Hask).
  pose proof (configure_environment_frame env _ session_view Hlog Hask).
  pose proof (reset_simulation_frame env _ session_view Hlog Hask).
  pose proof (get_position_frame env _ session_view Hask).
  pose proof (sample_loop_frame env _ session_view Hsleep Hlog Hask).
  assert (Hfail : forall p sent',
            (sent' = sent + match p with PhaseCommand => 1 | _ => 0 end)%nat ->
            hoare (fun w0 => session_view w0 = (records, progress, sent'))
              (fail_test p) Post).
  { intros p sent' Hsent w0 Hw0. unfold session_view in Hw0.
    injection Hw0 as Hv1 Hv2 Hv3.
    unfold fail_test, bind, log_test, count_failed, count_completed, ret, Post.
    cbn. rewrite Hv1, Hv2, Hv3. auto. }
  assert (Hrun : hoare (fun w0 => w0 = w) (run_test env n wind depth t) Post).
  { unfold run_test.
    eapply hoare_bind.
    { instantiate (1 := fun _ w0 =>
        session_view w0 = (records, progress_file w, sent) /\ counters w0 = counters w).
      intros w0 ->. split; reflexivity. }
    intros ?.
    eapply hoare_bind.
    { instantiate (1 := fun _ w0 => session_view w0 = (records, progress, sent)).
      intros w0 [Hv Hc]. unfold session_view in *. injection Hv as Hv1 Hv2 Hv3.
      unfold counters in Hc. injection Hc as Hc1 Hc2 Hc3.
      unfold update_progress, progress, progress_of. cbn.
      rewrite Hv1, Hv3, Hc1, Hc2, Hc3. reflexivity. }
    intros ?.
    view.
    destruct (negb (json_truthy _)); [ apply Hfail; lia | ].
    view. view.
    destruct (negb _); [ apply Hfail; lia | ].
    view. view. view. view.
    match goal with |- hoare _ (if ?b then _ else _) _ => destruct b end;
      [ apply Hfail; lia | ].
    view. view. view.
    destruct (negb _); [ apply Hfail; lia | ].
    view. view. view. view. view. view. view.
    match goal with |- hoare _ (match ?x with _ => _ end) _ => destruct x as [start_pos|] end;
      [ | apply Hfail; lia ].
    eapply hoare_bind; [ apply send_command_session_view | intros result ].
    destruct (dict_has "error" result); [ apply Hfail; lia | ].
    view. view.
    eapply hoare_bind; [ apply stable_hoare; solve [ auto ] | intros ? ].
    view. view.
    intros w0 Hw0. unfold session_view in Hw0. injection Hw0 as Hv1 Hv2 Hv3.
    rewrite passed_has_samples.
    unfold bind, log_test, now, save_test_data, update_progress,
      count_passed, count_failed, count_completed, ret, Post, has_samples.
    match goal with
    | |- context [Nat.eqb (List.length ?l) 0] =>
        destruct (Nat.eqb (List.length l) 0) eqn:Hlen
    end; cbn; rewrite ?Hlen; cbn; rewrite Hv1, Hv3; repeat split; reflexivity. }
  intros r w'. apply (Hrun w eq_refl).
Qed.

(** X7.  A TestRun is persisted exactly once, when sampling has ended: a test
    that ends at one of the early returns writes no record, and a test that
    reaches the sampling loop appends exactly the record it returns. *)
Theorem record_is_persisted_once env n wind depth t w :
  let r := fst (run_test env n wind depth t w) in
  let w' := snd (run_test env n wind depth t w) in
  raw_data w' = raw_data w ++ match r with
                              | Aborted _ => []
                              | Saved _ td => [td]
                              end.
Proof.
  intros r w'. pose proof (run_test_session_effects env n wind depth t w) as H.
  cbv zeta in H. fold r w' in H.
  destruct r as [p|exit td]; destruct H as (H & _).
  - rewrite H, app_nil_r. reflexivity.
  - exact H.
Qed.

(** X8.  The progress file after a test.  A test that reaches the sampling
    loop leaves DONE or FAILED with the updated counters; a test that ends at
    an early return leaves the file as written at its start: status RUNNING,
    with the counters from before the test. *)
Theorem progress_file_after_a_test env n wind depth t w :
  let r := fst (run_test env n wind depth t w) in
  let w' := snd (run_test env n wind depth t w) in
  progress_file w'
  = Some match r with
         | Aborted _ => progress_of n wind depth t RUNNING w
         | Saved _ _ =>
             progress_of n wind depth t (if has_samples r then DONE else FAILED) w'
         end.
Proof.
  intros r w'. pose proof (run_test_session_effects env n wind depth t w) as H.
  cbv zeta in H. fold r w' in H.
  destruct r as [p|exit td]; destruct H as (_ & H & _); exact H.
Qed.

(** ** C7: failures stay inside the test

    The outcome of the checks of a test depends on the world only through
    the calls made so far: the log, the counters and the files have no part
    in it. *)
Lemma related_ret {A B} (a : A) (b : B) (Q : A -> B -> Prop) :
  Q a b -> related (ret a) (ret b) Q.
Proof. intros H w1 w2 Hw. split; [ exact H | exact Hw ]. Qed.

Lemma related_bind {A A' B B'} (c1 : M A) (c2 : M A') (Q : A -> A' -> Prop)
    (k1 : A -> M B) (k2 : A' -> M B') (R : B -> B' -> Prop) :
  related c1 c2 Q -> (forall a a', Q a a' -> related (k1 a) (k2 a') R) ->
  related (bind c1 k1) (bind c2 k2) R.
Proof.
  intros Hc Hk w1 w2 Hw. unfold bind.
  destruct (Hc w1 w2 Hw) as [HQ Hw'].
  destruct (c1 w1) as [a u1]. destruct (c2 w2) as [a' u2].
  apply (Hk a a' HQ u1 u2 Hw').
Qed.

Lemma related_bind_eq {A B B'} (c : M A) (k1 : A -> M B) (k2 : A -> M B')
    (R : B -> B' -> Prop) :
  related c c eq -> (forall a, related (k1 a) (k2 a) R) ->
  related (bind c k1) (bind c k2) R.
Proof.
  intros Hc Hk. apply (related_bind c c eq); [ exact Hc | ].
  intros a a' <-. apply Hk.
Qed.

Lemma agree_bind {A A' B B'} (c1 : M A) (c2 : M A') (Q : A -> A' -> Prop)
    (k1 : A -> M B) (k2 : A' -> M B') (R : B -> B' -> World -> World -> Prop) :
  related c1 c2 Q -> (forall a a', Q a a' -> agree (k1 a) (k2 a') R) ->
  agree (bind c1 k1) (bind c2 k2) R.
Proof.
  intros Hc Hk w1 w2 Hw. unfold bind.
  destruct (Hc w1 w2 Hw) as [HQ Hw'].
  destruct (c1 w1) as [a u1]. destruct (c2 w2) as [a' u2].
  apply (Hk a a' HQ u1 u2 Hw').
Qed.

Lemma agree_left {A B B'} (c1 : M A) (k1 : A -> M B) (c2 : M B')
    (R : B -> B' -> World -> World -> Prop) :
  silent c1 -> (forall a, agree (k1 a) c2 R) -> agree (bind c1 k1) c2 R.
Proof.
  intros Hc Hk w1 w2 (H1 & H2 & H3). unfold bind.
  destruct (Hc w1) as (S1 & S2 & S3). destruct (c1 w1) as [a u1].
  apply Hk. cbn [snd] in *. repeat split; congruence.
Qed.

Lemma agree_final {A B} (c1 : M A) (b : B) (R : A -> B -> World -> World -> Prop) :
  (forall w1 w2, same_requests w1 w2 -> R (fst (c1 w1)) b (snd (c1 w1)) w2) ->
  agree c1 (ret b) R.
Proof. intros H w1 w2 Hw. apply H. exact Hw. Qed.

Lemma ask_related env e : related (ask env e) (ask env e) eq.
Proof.
  intros w1 w2 (Hc & Hn & Hh). unfold ask. rewrite Hc, Hn, Hh.
  destruct (call_timeout e <=? _); split; try reflexivity; repeat split.
Qed.

Lemma sleep_related ms : related (sleep ms) (sleep ms) eq.
Proof.
  intros w1 w2 (Hc & Hn & Hh). split; [ reflexivity | ].
  unfold sleep. cbn. rewrite Hc. repeat split; assumption.
Qed.

Lemma log_test_related m m' : related (log_test m) (log_test m') eq.
Proof. intros w1 w2 Hw. split; [ reflexivity | exact Hw ]. Qed.

Lemma log_test_silent m : silent (log_test m).
Proof. intros w. repeat split. Qed.

Lemma now_related : related now now eq.
Proof. intros w1 w2 Hw. split; [ apply Hw | exact Hw ]. Qed.

(** The primitive commands, for [split_related] to use. *)
Ltac related_primitives env :=
  pose proof (ask_related env);
  pose proof sleep_related;
  pose proof (fun m => log_test_related m m);
  pose proof now_related.

Ltac split_related :=
  repeat first
    [ apply related_ret; reflexivity
    | apply related_bind_eq; [ | intros ? ]
    | solve [ auto ]
    | match goal with
      | |- related (match ?x with _ => _ end) _ _ => destruct x
      end ].

Section Blind.

Variable env : Env.

Lemma get_auth_token_related : related (get_auth_token env) (get_auth_token env) eq.
Proof. related_primitives env. unfold get_auth_token. split_related. Qed.

Lemma check_chain_controller_related :
  related (check_chain_controller env) (check_chain_controller env) eq.
Proof.
  related_primitives env.
  pose proof get_auth_token_related.
  unfold check_chain_controller. split_related.
Qed.

Lemma reconnect_related n : related (reconnect env n) (reconnect env n) eq.
Proof.
  related_primitives env.
  pose proof check_chain_controller_related.
  induction n; simpl; split_related.
Qed.

Lemma restart_chain_controller_related :
  related (restart_chain_controller env) (restart_chain_controller env) eq.
Proof.
  related_primitives env.
  pose proof (reconnect_related 5).
  unfold restart_chain_controller. split_related.
Qed.

Lemma ensure_chain_controller_related :
  related (ensure_chain_controller env) (ensure_chain_controller env) eq.
Proof.
  related_primitives env.
  pose proof check_chain_controller_related.
  pose proof restart_chain_controller_related.
  unfold ensure_chain_controller. split_related.
Qed.

Lemma stop_chain_related : related (stop_chain env) (stop_chain env) eq.
Proof. related_primitives env. unfold stop_chain. split_related. Qed.

Lemma reset_anchor_related : related (reset_anchor env) (reset_anchor env) eq.
Proof. related_primitives env. unfold reset_anchor. split_related. Qed.

Lemma configure_environment_related wind depth :
  related (configure_environment env wind depth)
    (configure_environment env wind depth) eq.
Proof.
  related_primitives env.
  pose proof get_auth_token_related.
  unfold configure_environment. split_related.
Qed.

Lemma reset_simulation_related :
  related (reset_simulation env) (reset_simulation env) eq.
Proof.
  related_primitives env.
  pose proof get_auth_token_related.
  unfold reset_simulation. split_related.
Qed.

Lemma get_position_related token :
  related (get_position env token) (get_position env token) eq.
Proof. related_primitives env. unfold get_position. split_related. Qed.

Lemma send_command_related token c :
  related (send_command env token c) (send_command env token c) eq.
Proof. related_primitives env. unfold send_command. split_related. Qed.

End Blind.

Lemma update_progress_silent n wind depth t status :
  silent (update_progress n wind depth t status).
Proof. intros w. repeat split. Qed.

Lemma fail_test_phase p w : abort_phase (fst (fail_test p w)) = Some p.
Proof. reflexivity. Qed.

Lemma fail_test_agrees p :
  agree (fail_test p) (ret (Some p))
    (fun r first_failure w1 w2 =>
       abort_phase r = first_failure /\
       (first_failure <> None -> same_requests w1 w2)).
Proof.
  apply agree_final. intros w1 w2 Hw. split; [ reflexivity | ].
  intros _. exact Hw.
Qed.

(** [run_test] ends at the first check of [preflight] that fails, having
    made the same calls in the same time; when all checks pass it goes on to
    sample and returns the record it saves. *)
Lemma run_test_preflight env n wind depth t :
  agree (run_test env n wind depth t) (preflight env wind depth t)
    (fun r first_failure w1 w2 =>
       abort_phase r = first_failure /\
       (first_failure <> None -> same_requests w1 w2)).
Proof.
  unfold run_test, preflight.
  apply agree_left; [ apply log_test_silent | intros ? ].
  apply agree_left; [ apply update_progress_silent | intros ? ].
  eapply agree_bind; [ apply get_auth_token_related | intros token ? <- ].
  destruct (negb (json_truthy token)); [ apply fail_test_agrees | ].
  apply agree_left; [ apply log_test_silent | intros ? ].
  eapply agree_bind; [ apply ensure_chain_controller_related | intros ready ? <- ].
  destruct (negb ready); [ apply fail_test_agrees | ].
  apply agree_left; [ apply log_test_silent | intros ? ].
  apply agree_left; [ apply log_test_silent | intros ? ].
  eapply agree_bind; [ apply stop_chain_related | intros stopped ? <- ].
  eapply agree_bind.
  { instantiate (1 := fun not_reset reset => not_reset = negb reset).
    destruct stopped; cbn [negb].
    - intros w1 w2 Hw. unfold bind.
      destruct (reset_anchor_related env w1 w2 Hw) as [Hr Hw'].
      destruct (reset_anchor env w1) as [r1 u1].
      destruct (reset_anchor env w2) as [r2 u2].
      cbn [fst snd ret] in *. subst r2. split; [ reflexivity | exact Hw' ].
    - apply related_ret. reflexivity. }
  intros not_reset reset ->.
  destruct (negb reset); [ apply fail_test_agrees | ].
  apply agree_left; [ apply log_test_silent | intros ? ].
  apply agree_left; [ apply log_test_silent | intros ? ].
  eapply agree_bind;
    [ apply configure_environment_related | intros configured ? <- ].
  destruct (negb configured); [ apply fail_test_agrees | ].
  eapply agree_bind; [ apply reset_simulation_related | intros sim_reset ? <- ].
  apply agree_left;
    [ destruct (negb sim_reset); [ apply log_test_silent | intros w; repeat split ]
    | intros ? ].
  eapply agree_bind; [ apply sleep_related | intros ? ? _ ].
  apply agree_left; [ apply log_test_silent | intros ? ].
  apply agree_left; [ apply log_test_silent | intros ? ].
  apply agree_left; [ intros w; repeat split | intros start_time_ ].
  eapply agree_bind; [ apply get_position_related | intros start_pos ? <- ].
  destruct start_pos as [start_pos|]; [ | apply fail_test_agrees ].
  eapply agree_bind; [ apply send_command_related | intros result ? <- ].
  destruct (dict_has "error" result); [ apply fail_test_agrees | ].
  apply agree_final. intros w1 w2 _.
  split; [ | intros H; contradiction ].
  match goal with
  | |- abort_phase (fst (?c w1)) = None =>
      assert (H : hoare (fun _ => True) c (fun r _ => abort_phase r = None))
  end.
  { skip. skip. skip. skip. skip. skip. skip. skip. skip. skip.
    apply hoare_ret. reflexivity. }
  apply (H w1 I).
Qed.



(** X9.  The anchor command is sent at most once per test, and exactly
    when the login, the health check, the stop and reset of the anchor, the
    configuration and the read of the start position have all succeeded:
    that is, when the test passes all its checks or fails at the command
    itself. *)
Theorem command_is_sent_after_all_checks env n wind depth t w :
  let r := fst (run_test env n wind depth t w) in
  let w' := snd (run_test env n wind depth t w) in
  ncalls w' AnchorCommand
  = (ncalls w AnchorCommand
     + match fst (preflight env wind depth t w) with
       | None | Some PhaseCommand => 1
       | Some _ => 0
       end)%nat /\
  (r = Aborted PhaseCommand \/ (exists exit td, r = Saved exit td) <->
   ncalls w' AnchorCommand = S (ncalls w AnchorCommand)).
Proof.
  intros r w'. pose proof (run_test_session_effects env n wind depth t w) as H.
  cbv zeta in H. fold r w' in H.
  assert (Hpre : abort_phase r = fst (preflight env wind depth t w))
    by (apply (run_test_preflight env n wind depth t w w); repeat split).
  rewrite <- Hpre.
  destruct r as [p|exit td]; destruct H as (_ & _ & H); rewrite H; cbn [abort_phase].
  - split; [ destruct p; reflexivity | ].
    destruct p; split; try lia;
      try (intros [E | (exit & td & E)]; discriminate);
      intros _; left; reflexivity.
  - split; [ lia | ]. split; [ lia | ]. intros _. right. exists exit, td. reflexivity.
Qed.

(** ** The summary block *)

Lemma max_list_bounds rest :
  forall first,
    (first <= max_list first rest)%Q /\
    Forall (fun x => (x <= max_list first rest)%Q) rest /\
    In (max_list first rest) (first :: rest).
Proof.
  unfold max_list.
  induction rest as [|x rest IH]; intros first; simpl.
  - split; [ apply Qle_refl | split; [ constructor | auto ] ].
  - destruct (Qle_bool x first) eqn:E.
    + apply Qle_bool_iff in E.
      destruct (IH first) as (H1 & H2 & H3).
      split; [ exact H1 | split ].
      * constructor; [ eapply Qle_trans; eassumption | exact H2 ].
      * destruct H3 as [H3 | H3]; auto.
    + assert (Hlt : (first <= x)%Q).
      { destruct (Qlt_le_dec first x) as [H | H]; [ apply Qlt_le_weak; exact H | ].
        apply Qle_bool_iff in H. rewrite H in E. discriminate. }
      destruct (IH x) as (H1 & H2 & H3).
      split; [ eapply Qle_trans; eassumption | split ].
      * constructor; assumption.
      * destruct H3 as [H3 | H3]; auto.
Qed.

(** X10.  The summary of a record.  A record without Samples has no summary
    block.  Otherwise the block takes the final scope, rode, distance and
    speed from the last Sample (scope and rode reading 0 when the Sample
    lacks them), and [max_speed] is the speed of one of the Samples and at
    least the speed of every Sample. *)
Theorem summary_of_a_record env n wind depth t w exit td :
  fst (run_test env n wind depth t w) = Saved exit td ->
  match last_sample (samples td) with
  | None => samples td = [] /\ summary td = None
  | Some final =>
      exists sm,
        summary td = Some sm /\
        final_scope sm = dict_get "scopeRatio" (sample_sim_state final) (JNum 0) /\
        final_rode sm = dict_get "rodeDeployed" (sample_sim_state final) (JNum 0) /\
        final_distance sm = distance_from_start final /\
        final_speed sm = speed (position final) /\
        Forall (fun s => (speed (position s) <= max_speed sm)%Q) (samples td) /\
        Exists (fun s => speed (position s) = max_speed sm) (samples td)
  end.
Proof.
  intros Hrun.
  destruct (run_test_record env n wind depth t w exit td Hrun)
    as (_ & _ & _ & _ & _ & _ & _ & Hsummary & _).
  rewrite Hsummary. unfold make_summary.
  destruct (samples td) as [|first rest] eqn:Hsamples.
  - simpl. auto.
  - destruct (last_sample_cons first rest) as [final Hfinal]. rewrite Hfinal.
    eexists. split; [ reflexivity | ]. cbn.
    repeat split; try reflexivity.
    + destruct (max_list_bounds (map (fun s => speed (position s)) rest)
                  (speed (position first))) as (H1 & H2 & _).
      constructor; [ exact H1 | ].
      rewrite Forall_map in H2. exact H2.
    + destruct (max_list_bounds (map (fun s => speed (position s)) rest)
                  (speed (position first))) as (_ & _ & [H3 | H3]).
      * apply Exists_cons_hd. exact H3.
      * apply Exists_cons_tl. apply in_map_iff in H3. destruct H3 as (s & Hs & Hin).
        apply Exists_exists. exists s. auto.
Qed.

(** ** The matrix and the session *)

Lemma NoDup_flat_map_disjoint {A B} (g : A -> list B) l :
  NoDup l ->
  (forall a, In a l -> NoDup (g a)) ->
  (forall a b x, In a l -> In b l -> In x (g a) -> In x (g b) -> a = b) ->
  NoDup (flat_map g l).
Proof.
  induction l as [|a l IH]; intros Hl Hg Hdisjoint; simpl.
  - constructor.
  - inversion Hl as [|a' l' Hnotin Hl']; subst.
    apply NoDup_app.
    + apply Hg. left. reflexivity.
    + apply IH; [ exact Hl' | intros b Hb; apply Hg; right; exact Hb | ].
      intros b c x Hb Hc. apply Hdisjoint; right; assumption.
    + intros x Hx Hin. apply in_flat_map in Hin. destruct Hin as (b & Hb & Hxb).
      apply Hnotin.
      rewrite (Hdisjoint a b x); auto; [ left; reflexivity | right; exact Hb ].
Qed.

Lemma list_sum_constant {A} (l : list A) (k : nat) :
  list_sum (map (fun _ => k) l) = (List.length l * k)%nat.
Proof. induction l as [|a l IH]; simpl; [ reflexivity | rewrite IH; lia ]. Qed.

(** X11.  The test matrix is the product of the three lists: one entry for
    every combination of a wind speed, a depth and an operation, none of
    them twice when the lists have no duplicates, and as many entries as the
    product of the lengths; for the lists of the runner that is its
    [total_tests], 48. *)
Theorem test_matrix_is_the_product winds depths types :
  List.length (matrix_of winds depths types)
  = (List.length winds * List.length depths * List.length types)%nat /\
  (forall wind depth t,
     In (wind, depth, t) (matrix_of winds depths types) <->
     In wind winds /\ In depth depths /\ In t types) /\
  (NoDup winds -> NoDup depths -> NoDup types ->
   NoDup (matrix_of winds depths types)) /\
  test_matrix = matrix_of WIND_SPEEDS DEPTHS TEST_TYPES /\
  List.length test_matrix = total_tests /\ total_tests = 48%nat.
Proof.
  unfold matrix_of.
  split; [ | split; [ | split; [ | repeat split ] ] ].
  - rewrite length_flat_map.
    rewrite (map_ext _ (fun _ => (List.length depths * List.length types)%nat)).
    + rewrite list_sum_constant. lia.
    + intros wind. rewrite length_flat_map.
      rewrite (map_ext _ (fun _ => List.length types)).
      * apply list_sum_constant.
      * intros depth. apply length_map.
  - intros wind depth t. rewrite in_flat_map. split.
    + intros (wind' & Hw & Hin). apply in_flat_map in Hin.
      destruct Hin as (depth' & Hd & Hin). apply in_map_iff in Hin.
      destruct Hin as (t' & E & Ht). injection E as -> -> ->. auto.
    + intros (Hw & Hd & Ht). exists wind. split; [ exact Hw | ].
      apply in_flat_map. exists depth. split; [ exact Hd | ].
      apply in_map_iff. exists t. auto.
  - intros Hwinds Hdepths Htypes.
    apply NoDup_flat_map_disjoint; [ exact Hwinds | | ].
    + intros wind _. apply NoDup_flat_map_disjoint; [ exact Hdepths | | ].
      * intros depth _. apply Injective_map_NoDup; [ | exact Htypes ].
        intros t1 t2 E. injection E as ->. reflexivity.
      * intros d1 d2 x _ _ H1 H2. apply in_map_iff in H1, H2.
        destruct H1 as (t1 & <- & _). destruct H2 as (t2 & E & _).
        injection E as -> _. reflexivity.
    + intros w1 w2 x _ _ H1 H2. apply in_flat_map in H1, H2.
      destruct H1 as (d1 & _ & H1). destruct H2 as (d2 & _ & H2).
      apply in_map_iff in H1, H2.
      destruct H1 as (t1 & <- & _). destruct H2 as (t2 & E & _).
      injection E as -> _ _. reflexivity.
Qed.

Lemma ask_session_state env e :
  Endpoint_eqb e AnchorCommand = false -> stable session_state (ask env e).
Proof.
  intros He w. unfold session_state.
  rewrite ask_counters, (ask_session_view env e He). reflexivity.
Qed.

Lemma run_all_tests_unfold env w :
  run_all_tests env w =
  if fst (session_preflight env w)
  then (run_matrix env test_matrix 1 ;;
        (fun v => log_test (LogSummary total_tests (tests_completed v)
                              (tests_passed v) (tests_failed v)) v) ;;
        ret Finished) (snd (session_preflight env w))
  else (ExitFailure, snd (session_preflight env w)).
Proof.
  unfold run_all_tests, session_preflight, bind.
  destruct (verify_server env w) as [[|] w1]; cbn [negb fst snd ret];
    [ | reflexivity ].
  destruct (check_chain_controller env w1) as [[[|] msg] w2]; cbn [negb fst snd ret];
    [ reflexivity | ].
  destruct (restart_chain_controller env w2) as [[|] w3]; reflexivity.
Qed.

Lemma session_preflight_session_state env :
  stable session_state (session_preflight env).
Proof.
  assert (Hsleep : forall ms, stable session_state (sleep ms))
    by (intros ms u; reflexivity).
  assert (Hlog : forall m, stable session_state (log_test m))
    by (intros m u; reflexivity).
  pose proof (ask_session_state env) as Hask.
  pose proof (verify_server_frame env _ session_state Hlog Hask).
  pose proof (check_chain_controller_frame env _ session_state Hlog Hask).
  pose proof (restart_chain_controller_frame env _ session_state Hsleep Hlog Hask).
  unfold session_preflight. split_command; auto.
Qed.


(** ** The requests of the sampler *)

(** Whatever the replies, [collect_sample] leaves the world its four reads
    leave. *)
Lemma collect_sample_world env token sp slat slon st w :
  snd (collect_sample env token sp slat slon st w)
  = snd (ask env SimulationState
      (snd (ask env NavHeading
        (snd (ask env NavSpeed
          (snd (ask env NavPosition w))))))).
Proof.
  unfold collect_sample, get_position, get_speed, get_heading,
    get_simulation_state, bind.
  destruct (ask env NavPosition w) as [[pos|c1|] w1]; cbn [ret snd];
    destruct (ask env NavSpeed w1) as [[v|c2|] w2]; cbn [ret snd];
    destruct (ask env NavHeading w2) as [[rad|c3|] w3]; cbn [ret snd];
    destruct (ask env SimulationState w3) as [[state|c4|] w4];
    cbn [ret fst snd]; try reflexivity;
    match goal with
    | |- context [Q_truthy ?x] => destruct (Q_truthy x)
    end; reflexivity.
Qed.

(** X13.  Every call of [collect_sample] issues exactly one request to each of
    the four telemetry endpoints (position, speed, heading, simulator state),
    whatever the replies: a failed position read does not spare the other
    three.  It never logs in: the token of the test is used as it is. *)
Theorem collect_sample_reads_all_four env token sp slat slon st w :
  let w' := snd (collect_sample env token sp slat slon st w) in
  ncalls w' NavPosition = S (ncalls w NavPosition) /\
  ncalls w' NavSpeed = S (ncalls w NavSpeed) /\
  ncalls w' NavHeading = S (ncalls w NavHeading) /\
  ncalls w' SimulationState = S (ncalls w SimulationState) /\
  ncalls w' AuthLogin = ncalls w AuthLogin.
Proof.
  cbv zeta. rewrite collect_sample_world.
  repeat split; repeat (rewrite ask_ncalls; cbn [Endpoint_eqb]); reflexivity.
Qed.

(** The calls a command adds to an endpoint. *)
Lemma collect_sample_calls env token sp slat slon st w e :
  ncalls (snd (collect_sample env token sp slat slon st w)) e
  = (ncalls w e
     + if Endpoint_eqb NavPosition e || Endpoint_eqb NavSpeed e
          || Endpoint_eqb NavHeading e || Endpoint_eqb SimulationState e
       then 1 else 0)%nat.
Proof.
  rewrite collect_sample_world. rewrite !ask_ncalls.
  destruct e; cbn [Endpoint_eqb orb]; rewrite ?ask_ncalls; cbn [Endpoint_eqb];
    rewrite ?ask_ncalls; cbn [Endpoint_eqb]; rewrite ?ask_ncalls;
    cbn [Endpoint_eqb]; lia.
Qed.

(** X14.  The sampling loop talks to the four telemetry endpoints only, and
    equally often to each: however long it runs, it never logs in again,
    never sends a command, never restarts the controller. *)
Theorem sampling_uses_only_the_telemetry_reads env fuel t token sp slat slon ts md :
  forall nxt samples w,
    let w' := snd (sample_loop env fuel t token sp slat slon ts md nxt samples w) in
    exists reads : nat,
      forall e,
        ncalls w' e
        = (ncalls w e
           + if Endpoint_eqb NavPosition e || Endpoint_eqb NavSpeed e
                || Endpoint_eqb NavHeading e || Endpoint_eqb SimulationState e
             then reads else 0)%nat.
Proof.
  induction fuel as [|fuel IH]; intros nxt samples w.
  - exists 0%nat. intros e. simpl. destruct (_ || _); lia.
  - cbv zeta. rewrite sample_loop_step.
    destruct (clock w - ts <? md);
      [ | exists 0%nat; intros e; simpl; destruct (_ || _); lia ].
    cbv zeta. rewrite sample_tick_unfold.
    destruct (nxt <=? clock w).
    + cbn [fst snd].
      set (w1 := snd (sleep 100 (snd (collect_sample env token sp slat slon ts w)))).
      assert (Hw1 : forall e,
                ncalls w1 e
                = (ncalls w e
                   + if Endpoint_eqb NavPosition e || Endpoint_eqb NavSpeed e
                        || Endpoint_eqb NavHeading e || Endpoint_eqb SimulationState e
                     then 1 else 0)%nat)
        by (intros e; apply collect_sample_calls).
      destruct (check_termination t _).
      * destruct (IH (clock w + SAMPLE_INTERVAL)
                    (match fst (collect_sample env token sp slat slon ts w) with
                     | Some s => samples ++ [s]
                     | None => samples
                     end) w1) as [reads Hreads].
        exists (S reads). intros e. cbv zeta in Hreads. rewrite Hreads, Hw1.
        destruct (_ || _); lia.
      * exists 1%nat. intros e. cbn [snd log_test].
        change (ncalls (set_test_log ?l ?x)) with (ncalls x). apply Hw1.
      * exists 1%nat. intros e. cbn [snd log_test].
        change (ncalls (set_test_log ?l ?x)) with (ncalls x). apply Hw1.
    + cbn [fst snd].
      destruct (check_termination t samples).
      * destruct (IH nxt samples (snd (sleep 100 w))) as [reads Hreads].
        exists reads. intros e. cbv zeta in Hreads. rewrite Hreads. reflexivity.
      * exists 0%nat. intros e. cbn. destruct (_ || _); lia.
      * exists 0%nat. intros e. cbn. destruct (_ || _); lia.
Qed.

(** ** Runs of the scenarios *)

Lemma elapsed_sec_never_decreases_witness :
  fst (run_test env_nominal 1 8 3 autoDrop (initial_world 0))
  = Saved ConditionMet nominal_drop_data /\
  StronglySorted (fun a b => elapsed_sec a <= elapsed_sec b)
    (samples nominal_drop_data) /\
  Forall (fun s => 0 <= elapsed_sec s) (samples nominal_drop_data).
Proof.
  assert (nominal_drop_run_saved :
            fst (run_test env_nominal 1 8 3 autoDrop (initial_world 0))
            = Saved ConditionMet nominal_drop_data)
    by (vm_compute; reflexivity).
  split; [ exact nominal_drop_run_saved | ].
  apply (elapsed_sec_never_decreases env_nominal 1 8 3 autoDrop (initial_world 0)
           ConditionMet nominal_drop_data).
  exact nominal_drop_run_saved.
Defined.

Lemma how_a_run_ends_witness :
  fst (run_test env_telemetry_lost 1 8 3 autoDrop (initial_world 0))
  = Saved TimedOut telemetry_lost_data /\
  TEST_TIMEOUT <= duration_sec (test_metadata telemetry_lost_data).
Proof.
  assert (telemetry_lost_run_saved :
            fst (run_test env_telemetry_lost 1 8 3 autoDrop (initial_world 0))
            = Saved TimedOut telemetry_lost_data)
    by (vm_compute; reflexivity).
  split; [ exact telemetry_lost_run_saved | ].
  apply (how_a_run_ends env_telemetry_lost 1 8 3 autoDrop (initial_world 0)
           TimedOut telemetry_lost_data telemetry_lost_run_saved).
  reflexivity.
Defined.

Lemma sample_count_is_bounded_witness :
  fst (run_test env_nominal 1 8 3 autoDrop (initial_world 0))
  = Saved ConditionMet nominal_drop_data /\
  Z.of_nat (List.length (samples nominal_drop_data)) < TEST_TIMEOUT / SAMPLE_INTERVAL /\
  (sample_count (test_metadata nominal_drop_data) < 1200)%nat.
Proof.
  assert (nominal_drop_run_saved :
            fst (run_test env_nominal 1 8 3 autoDrop (initial_world 0))
            = Saved ConditionMet nominal_drop_data)
    by (vm_compute; reflexivity).
  split; [ exact nominal_drop_run_saved | ].
  apply (sample_count_is_bounded env_nominal 1 8 3 autoDrop (initial_world 0)
           ConditionMet nominal_drop_data).
  exact nominal_drop_run_saved.
Defined.

Lemma sampling_stops_at_first_completion_witness :
  fst (run_test env_nominal 1 8 3 autoDrop (initial_world 0))
  = Saved ConditionMet nominal_drop_data /\
  exists front s,
    samples nominal_drop_data = front ++ [s] /\ completes autoDrop s = true.
Proof.
  assert (nominal_drop_run_saved :
            fst (run_test env_nominal 1 8 3 autoDrop (initial_world 0))
            = Saved ConditionMet nominal_drop_data)
    by (vm_compute; reflexivity).
  split; [ exact nominal_drop_run_saved | ].
  apply (sampling_stops_at_first_completion env_nominal 1 8 3 autoDrop
           (initial_world 0) ConditionMet nominal_drop_data nominal_drop_run_saved).
  reflexivity.
Defined.

Lemma summary_of_a_record_witness :
  fst (run_test env_nominal 1 8 3 autoDrop (initial_world 0))
  = Saved ConditionMet nominal_drop_data /\
  match last_sample (samples nominal_drop_data) with
  | None => samples nominal_drop_data = [] /\ summary nominal_drop_data = None
  | Some final =>
      exists sm,
        summary nominal_drop_data = Some sm /\
        final_scope sm = dict_get "scopeRatio" (sample_sim_state final) (JNum 0) /\
        final_rode sm = dict_get "rodeDeployed" (sample_sim_state final) (JNum 0) /\
        final_distance sm = distance_from_start final /\
        final_speed sm = speed (position final) /\
        Forall (fun s => (speed (position s) <= max_speed sm)%Q)
          (samples nominal_drop_data) /\
        Exists (fun s => speed (position s) = max_speed sm) (samples nominal_drop_data)
  end.
Proof.
  assert (nominal_drop_run_saved :
            fst (run_test env_nominal 1 8 3 autoDrop (initial_world 0))
            = Saved ConditionMet nominal_drop_data)
    by (vm_compute; reflexivity).
  split; [ exact nominal_drop_run_saved | ].
  apply (summary_of_a_record env_nominal 1 8 3 autoDrop (initial_world 0)
           ConditionMet nominal_drop_data).
  exact nominal_drop_run_saved.
Defined.

(** ** A token that is not a token *)

(** X15.  [get_signalk_value] logs in only when its token is [None].  Given
    any other falsy token, such as the empty string, it returns [None] at
    once: it neither logs in nor issues the request. *)
Theorem falsy_token_is_not_replaced env path token w :
  token <> JNull ->
  json_truthy token = false ->
  Common.get_signalk_value env path token w = (JNull, w).
Proof.
  intros Hnull Hfalsy. unfold Common.get_signalk_value, bind.
  replace (match token with JNull => Common.get_auth_token env | _ => ret token end w)
    with (token, w) by (destruct token; try reflexivity; contradiction).
  rewrite Hfalsy. reflexivity.
Qed.

Lemma falsy_token_is_not_replaced_witness :
  JStr "" <> JNull /\
  json_truthy (JStr "") = false /\
  Common.get_signalk_value env_nominal "navigation/position/value" (JStr "")
    (initial_world 0) = (JNull, initial_world 0).
Proof.
  split; [ discriminate | split; [ reflexivity | ] ].
  apply (falsy_token_is_not_replaced env_nominal "navigation/position/value"
           (JStr "") (initial_world 0)); [ discriminate | reflexivity ].
Defined.
